(** * The yacht club party problem: the constraint model of [yachtclub.py]

    The script posts nine families of constraints over two arrays of boolean
    decision variables, [boats] of shape (slots, n, n) and [hosts] of shape n,
    asks the solver to maximise the number of guests, and prints the schedule
    or "No solution (UNSAT)".

    The embedding is shallow: a constraint is a boolean function of a
    valuation of the decision variables, the model is the list of constraints
    in the order the script posts them, and the solver call is given its
    reference semantics, an exhaustive search of the finite valuation space
    that keeps a valuation of greatest objective value.  Construction of the
    model fails for fewer than two boats, where the library hands back no
    array of host variables. *)

From Stdlib Require Import List ZArith Lia Bool Arith.
Import ListNotations.

(** ** Problem instance (lines 21-32)

    [n_boats] and [available_halfhours] are the script's parameters;
    [crew_size] and [capacity] are the two arrays, which the script draws from
    a seeded generator and which are taken here as data.  Integers are
    unbounded, as in the solver's arithmetic. *)
Record Instance : Type := {
  n_boats : nat;
  available_halfhours : nat;
  crew_size : list Z;
  capacity : list Z
}.

(** ** Valuation of the decision variables (lines 36 and 40)

    [boats a t i j] is the value of [boats[t, i, j]]: boat [i] visits boat
    [j] in period [t].  [hosts a b] is the value of [hosts[b]]. *)
Record Assignment : Type := {
  hosts : nat -> bool;
  boats : nat -> nat -> nat -> bool
}.

(** [range n] is Python's [range(n)]; [range_from lo hi] is [range(lo, hi)]. *)
Definition range (n : nat) : list nat := seq 0 n.
Definition range_from (lo hi : nat) : list nat := seq lo (hi - lo).

(** [sum] is [cp.sum] over a list of integer terms. *)
Definition sum (l : list Z) : Z := fold_right Z.add 0%Z l.

(** A boolean variable used as a 0/1 integer. *)
Definition b2z (b : bool) : Z := if b then 1%Z else 0%Z.

Definition Constraint : Type := Assignment -> bool.
Definition Model : Type := list Constraint.

Section ConstraintModel.

Variable inst : Instance.

Let n := n_boats inst.
Let T := available_halfhours inst.

Definition crew (b : nat) : Z := nth b (crew_size inst) 0%Z.
Definition cap (b : nat) : Z := nth b (capacity inst) 0%Z.

(** [cp.sum(boats[t, :, b] * crew_size)] *)
Definition guests_aboard (t b : nat) (a : Assignment) : Z :=
  sum (map (fun i => b2z (boats a t i b) * crew i)%Z (range n)).

(** [cp.sum(boats[:, :, b])] *)
Definition visits_to (b : nat) (a : Assignment) : Z :=
  sum (map (fun t => sum (map (fun i => b2z (boats a t i b)) (range n)))
           (range T)).

(** [cp.sum(boats[:, b, :])] *)
Definition visits_from (b : nat) (a : Assignment) : Z :=
  sum (map (fun t => sum (map (fun j => b2z (boats a t b j)) (range n)))
           (range T)).

(** [cp.sum(boats[:, i, j])] *)
Definition pair_visits (i j : nat) (a : Assignment) : Z :=
  sum (map (fun t => b2z (boats a t i j)) (range T)).

(** [cp.sum(boats[ah, i, :])] *)
Definition slot_visits (ah i : nat) (a : Assignment) : Z :=
  sum (map (fun j => b2z (boats a ah i j)) (range n)).

(** [cp.sum([boats[t, i, h] * boats[t, k, h] for t in ... for h in ...])] *)
Definition meetings (i k : nat) (a : Assignment) : Z :=
  sum (flat_map
         (fun t => map (fun h => b2z (boats a t i h) * b2z (boats a t k h))%Z
                       (range n))
         (range T)).

(** [cp.sum(hosts)] *)
Definition host_count (a : Assignment) : Z :=
  sum (map (fun b => b2z (hosts a b)) (range n)).

(** Script constraint #C1 (lines 47-52): capacity limits and no self-visits. *)
Definition capacity_limit (t b : nat) : Constraint :=
  fun a => (guests_aboard t b a + crew b <=? cap b)%Z.

Definition no_self_visit (t b : nat) : Constraint :=
  fun a => (b2z (boats a t b b) =? 0)%Z.

Definition C1 : Model :=
  flat_map (fun t =>
    flat_map (fun b => [capacity_limit t b; no_self_visit t b]) (range n))
    (range T).

(** Script constraint #C2 (lines 55-59): hosts have guests, non-hosts have none. *)
Definition host_has_guests (b : nat) : Constraint :=
  fun a => implb (hosts a b) (0 <? visits_to b a)%Z.

Definition guest_has_no_guests (b : nat) : Constraint :=
  fun a => implb (negb (hosts a b)) (visits_to b a =? 0)%Z.

Definition C2 : Model :=
  flat_map (fun b => [host_has_guests b; guest_has_no_guests b]) (range n).

(** Script constraint #C3 (lines 62-63): hosts visit nobody. *)
Definition host_stays (b : nat) : Constraint :=
  fun a => implb (hosts a b) (visits_from b a =? 0)%Z.

Definition C3 : Model := map host_stays (range n).

(** Script constraint #C4 (lines 66-67): every guest visits somebody. *)
Definition guest_visits (b : nat) : Constraint :=
  fun a => implb (negb (hosts a b)) (0 <? visits_from b a)%Z.

Definition C4 : Model := map guest_visits (range n).

(** Script constraint #C5 (lines 71-74): a guest visits each host exactly once. *)
Definition visits_once (i j : nat) : Constraint :=
  fun a => implb (negb (hosts a i) && hosts a j) (pair_visits i j a =? 1)%Z.

Definition C5 : Model :=
  flat_map (fun i =>
    flat_map (fun j => if Nat.eqb i j then [] else [visits_once i j])
             (range n))
    (range n).

(** Script constraint #C6 (lines 77-79): a guest is on one boat at most in a period. *)
Definition one_per_slot (ah i : nat) : Constraint :=
  fun a => implb (negb (hosts a i)) (slot_visits ah i a <=? 1)%Z.

Definition C6 : Model :=
  flat_map (fun ah => map (one_per_slot ah) (range n)) (range T).

(** Script constraint #C7 (lines 83-94): two guests meet at most once. *)
Definition meet_once (i k : nat) : Constraint :=
  fun a => implb (negb (hosts a i) && negb (hosts a k))
                 (meetings i k a <=? 1)%Z.

Definition C7 : Model :=
  flat_map (fun i => map (meet_once i) (range_from (i + 1) n)) (range n).

(** Script constraints #C8 (line 97) and #C9 (line 100): bounds on the number of hosts. *)
Definition C8 : Constraint := fun a => (0 <? host_count a)%Z.
Definition C9 : Constraint := fun a => (host_count a <? Z.of_nat n)%Z.

(** The model after line 100, in posting order, when construction reaches
    line 100.  With fewer than two boats it does not: see [build_model]. *)
Definition model : Model :=
  C1 ++ C2 ++ C3 ++ C4 ++ C5 ++ C6 ++ C7 ++ [C8; C9].

(** The objective of line 105: [cp.sum(~hosts)]. *)
Definition objective (a : Assignment) : Z :=
  sum (map (fun b => b2z (negb (hosts a b))) (range n)).

End ConstraintModel.

(** A valuation is accepted by a model when every posted constraint holds. *)
Definition satisfies (m : Model) (a : Assignment) : bool :=
  forallb (fun c => c a) m.

Definition accepted (inst : Instance) (a : Assignment) : bool :=
  satisfies (model inst) a.

(** ** The solver (lines 105-109)

    [model.maximize] followed by [model.solve()] is a call into the
    constraint library.  Its reference semantics is modelled by enumeration:
    every valuation of the [n] host flags and of the [slots * n * n] visit
    flags is generated, those the model accepts are kept, and one of greatest
    objective value is returned; [None] is the script's UNSAT branch. *)

Definition Visit : Type := (nat * nat * nat)%type.

Definition visit_eqb (x y : Visit) : bool :=
  let '(t, i, j) := x in
  let '(t', i', j') := y in
  Nat.eqb t t' && Nat.eqb i i' && Nat.eqb j j'.

(** All boolean valuations of the variables listed in [dom]. *)
Fixpoint valuations {K : Type} (eqb : K -> K -> bool) (dom : list K)
  : list (K -> bool) :=
  match dom with
  | [] => [fun _ => false]
  | k :: ks =>
      flat_map (fun f => [fun x => if eqb x k then true else f x;
                          fun x => if eqb x k then false else f x])
               (valuations eqb ks)
  end.

Definition visit_variables (inst : Instance) : list Visit :=
  flat_map (fun t =>
    flat_map (fun i => map (fun j => (t, i, j)) (range (n_boats inst)))
             (range (n_boats inst)))
    (range (available_halfhours inst)).

Definition candidates (inst : Instance) : list Assignment :=
  flat_map (fun h =>
    map (fun v => {| hosts := h; boats := fun t i j => v (t, i, j) |})
        (valuations visit_eqb (visit_variables inst)))
    (valuations Nat.eqb (range (n_boats inst))).

Definition solutions (inst : Instance) : list Assignment :=
  filter (accepted inst) (candidates inst).

(** A member of [l] of greatest [f]-value, if [l] is not empty. *)
Fixpoint best {A : Type} (f : A -> Z) (l : list A) : option A :=
  match l with
  | [] => None
  | x :: xs =>
      match best f xs with
      | None => Some x
      | Some y => if (f y <=? f x)%Z then Some x else Some y
      end
  end.

Definition solve (inst : Instance) : option Assignment :=
  best (objective inst) (solutions inst).

(** ** Building the model (lines 36-100)

    [cp.boolvar(shape)] with an integer shape raises [NullShapeError] for 0,
    returns a single variable, not an array, for 1, and an array of [shape]
    variables otherwise.  Line 40 calls it with [n_boats]. *)
Inductive Exception : Type := NullShapeError | TypeError.

Inductive HostVars : Type :=
| HostScalar
| HostArray (size : nat).

Definition boolvar (shape : nat) : Exception + HostVars :=
  match shape with
  | 0 => inl NullShapeError
  | 1 => inr HostScalar
  | _ => inr (HostArray shape)
  end.

(** Construction ends with the whole model, or with an exception after some
    constraints have been posted. *)
Inductive BuildResult : Type :=
| Built (m : Model)
| Failed (e : Exception) (posted : Model).

(** With no boat, line 40 raises before anything is posted.  With one boat
    [hosts] is a single variable: the loop of lines 47-52, which does not use
    it, posts its constraints, and [hosts[b]] at line 57 raises.  With two
    boats or more every constraint is posted. *)
Definition build_model (inst : Instance) : BuildResult :=
  match boolvar (n_boats inst) with
  | inl e => Failed e []
  | inr HostScalar => Failed TypeError (C1 inst)
  | inr (HostArray _) => Built (model inst)
  end.

(** The ways a run of the script can end: the branch of line 109, the branch
    of line 161, or an exception.  The script has no [raise] of its own and
    checks nothing about its parameters; the exceptions are those of
    [build_model]. *)
Inductive Outcome : Type :=
| SolutionFound (a : Assignment)
| Unsat
| Raised (e : Exception).

Definition run (inst : Instance) : Outcome :=
  match build_model inst with
  | Failed e _ => Raised e
  | Built _ =>
      match solve inst with
      | Some a => SolutionFound a
      | None => Unsat
      end
  end.

(** ** The solver as a parameter

    What the script relies on is the contract of [model.maximize] followed by
    [model.solve()]: a valuation satisfying every posted constraint with the
    greatest value of the posted objective is returned when one exists, and
    the absence of a solution is reported otherwise.  A solver is any function
    of the posted model and objective; [solver_contract] states the contract
    at the script's call, and [solve] above is one solver that meets it. *)
Definition Solver : Type := Model -> (Assignment -> Z) -> option Assignment.


Definition reference_solver (inst : Instance) : Solver :=
  fun m obj => best obj (filter (satisfies m) (candidates inst)).

Definition run_with (S : Solver) (inst : Instance) : Outcome :=
  match build_model inst with
  | Failed e _ => Raised e
  | Built m =>
      match S m (objective inst) with
      | Some a => SolutionFound a
      | None => Unsat
      end
  end.


(** The value of the objective at a valuation.  It is the number of boats
    that are not hosts: see [objective_counts_guests]. *)
Definition guest_count (inst : Instance) (a : Assignment) : Z :=
  objective inst a.

(** ** Concrete instances *)

(** Three boats, one period: boat 0 hosts boats 1 and 2. *)
Definition inst3 : Instance :=
  {| n_boats := 3; available_halfhours := 1;
     crew_size := [5; 5; 5]%Z; capacity := [20; 5; 5]%Z |}.

Definition sched3 : Assignment :=
  {| hosts := fun b => Nat.eqb b 0;
     boats := fun t i j =>
       Nat.eqb t 0 && (Nat.eqb i 1 || Nat.eqb i 2) && Nat.eqb j 0 |}.

(** Two boats, one period: only boat 1 has room for both crews. *)
Definition inst2 : Instance :=
  {| n_boats := 2; available_halfhours := 1;
     crew_size := [5; 5]%Z; capacity := [5; 20]%Z |}.

Definition sched2 : Assignment :=
  {| hosts := fun b => Nat.eqb b 1;
     boats := fun t i j => Nat.eqb t 0 && Nat.eqb i 0 && Nat.eqb j 1 |}.

(** Two boats, one period: neither boat has room for both crews. *)
Definition inst2_tight : Instance :=
  {| n_boats := 2; available_halfhours := 1;
     crew_size := [5; 5]%Z; capacity := [9; 9]%Z |}.

(** ** Notions used to state the properties *)

(** The (period, host) combinations in which boats [i] and [k] are aboard the
    same boat at the same time: what the sum [meetings] counts. *)
Definition shared_visits (inst : Instance) (a : Assignment) (i k : nat)
  : list (nat * nat) :=
  filter (fun p => boats a (fst p) i (snd p) && boats a (fst p) k (snd p))
         (list_prod (range (available_halfhours inst)) (range (n_boats inst))).

(** Two valuations that give the same value to every variable of the model. *)
Definition agree (inst : Instance) (a a' : Assignment) : Prop :=
  (forall b, b < n_boats inst -> hosts a b = hosts a' b) /\
  (forall t i j, t < available_halfhours inst -> i < n_boats inst ->
                 j < n_boats inst -> boats a t i j = boats a' t i j).

(** [a] is an accepted valuation with as many guests as any accepted one. *)
Definition optimal (inst : Instance) (a : Assignment) : Prop :=
  accepted inst a = true /\
  forall a', accepted inst a' = true ->
             (guest_count inst a' <= guest_count inst a)%Z.

Definition feasible (inst : Instance) : Prop :=
  exists a, accepted inst a = true.

(** The instances the specification calls structurally wrong: no period,
    fewer than two boats, or a boat too small for its own crew (crews being
    non-negative, as the script draws them). *)
Definition ill_formed (inst : Instance) : Prop :=
  available_halfhours inst < 1 \/
  n_boats inst < 2 \/
  ((forall i, i < n_boats inst -> (0 <= crew inst i)%Z) /\
   exists b, b < n_boats inst /\ (cap inst b < crew inst b)%Z).

(** Replace entry [b] of an array; out of range nothing changes. *)
Fixpoint set_nth (l : list Z) (b : nat) (c : Z) : list Z :=
  match l, b with
  | [], _ => []
  | _ :: xs, O => c :: xs
  | x :: xs, S b' => x :: set_nth xs b' c
  end.

(** The instance with the capacity of boat [b] changed to [c]. *)
Definition with_capacity (inst : Instance) (b : nat) (c : Z) : Instance :=
  {| n_boats := n_boats inst;
     available_halfhours := available_halfhours inst;
     crew_size := crew_size inst;
     capacity := set_nth (capacity inst) b c |}.

(** Boat [b] has no room for both crews of a two-boat instance. *)
Definition cannot_accommodate (inst : Instance) (b : nat) : Prop :=
  (cap inst b < crew inst 0 + crew inst 1)%Z.

(** ** Instance generation (lines 22-32)

    [np.random.randint(low, high, n)] returns [n] integers, each at least
    [low] and below [high].  The two draws of the script are taken as
    arguments, so that the arithmetic of lines 29-32 can be stated for every
    outcome of the generator. *)
Definition randint_result (low high : Z) (n : nat) (draw : list Z) : Prop :=
  length draw = n /\ Forall (fun x => (low <= x < high)%Z) draw.

(** [capacity = crew_size + draw], element by element. *)
Definition add_arrays (xs ys : list Z) : list Z :=
  map (fun p => (fst p + snd p)%Z) (combine xs ys).

Definition generate (n T : nat) (crew_draw capacity_draw : list Z) : Instance :=
  {| n_boats := n;
     available_halfhours := T;
     crew_size := crew_draw;
     capacity := add_arrays crew_draw capacity_draw |}.


(** ** The printed schedule (lines 112-121) *)

(** [hosts_values], line 113. *)
Definition hosts_values (inst : Instance) (a : Assignment) : list bool :=
  map (hosts a) (range (n_boats inst)).

(** The lines "Boat i+1 (guest) visits Boat j+1 (host)" printed for period
    [t], in printing order, each as the pair of the two printed numbers. *)
Definition report_period (inst : Instance) (a : Assignment) (t : nat)
  : list (nat * nat) :=
  flat_map (fun i =>
    flat_map (fun j => if (b2z (boats a t i j) =? 1)%Z
                       then [(i + 1, j + 1)] else [])
             (range (n_boats inst)))
    (range (n_boats inst)).

(** The whole report: the printed period number with the lines under it. *)
Definition report (inst : Instance) (a : Assignment)
  : list (nat * list (nat * nat)) :=
  map (fun t => (t + 1, report_period inst a t))
      (range (available_halfhours inst)).

(** ** The visit graphs (lines 125-135 and 149-157)

    A directed graph keeps its nodes in insertion order, each with its
    attributes, and its edges, each with its [time] attribute.  A node created
    by [add_edge] alone has no attributes ([None]); reading an attribute of
    such a node, or of a node that is not in the graph, fails. *)
Inductive Color : Type := Red | Blue.

Record NodeData : Type := {
  color : Color;
  node_crew_size : Z;
  node_capacity : Z
}.

Record DiGraph : Type := {
  nodes : list (nat * option NodeData);
  edges : list (nat * nat * nat)
}.

Definition empty_graph : DiGraph := {| nodes := []; edges := [] |}.

Definition has_node (G : DiGraph) (v : nat) : bool :=
  existsb (fun p => Nat.eqb (fst p) v) (nodes G).

Definition has_edge (G : DiGraph) (u v : nat) : bool :=
  existsb (fun e => Nat.eqb (fst (fst e)) u && Nat.eqb (snd (fst e)) v)
          (edges G).

(** [G.add_node(v, color=..., crew_size=..., capacity=...)]: a new node is
    appended, an existing one gets the three attributes. *)
Definition add_node (G : DiGraph) (v : nat) (d : NodeData) : DiGraph :=
  if has_node G v
  then {| nodes := map (fun p => if Nat.eqb (fst p) v then (v, Some d) else p)
                       (nodes G);
          edges := edges G |}
  else {| nodes := nodes G ++ [(v, Some d)]; edges := edges G |}.

Definition ensure_node (G : DiGraph) (v : nat) : DiGraph :=
  if has_node G v then G
  else {| nodes := nodes G ++ [(v, None)]; edges := edges G |}.

(** [G.add_edge(u, v, time=...)]: missing end points are created, a new edge
    is appended, an existing one gets the new [time]. *)
Definition add_edge (G : DiGraph) (u v time : nat) : DiGraph :=
  let G2 := ensure_node (ensure_node G u) v in
  if has_edge G2 u v
  then {| nodes := nodes G2;
          edges := map (fun e => if Nat.eqb (fst (fst e)) u
                                    && Nat.eqb (snd (fst e)) v
                                 then (u, v, time) else e)
                       (edges G2) |}
  else {| nodes := nodes G2; edges := edges G2 ++ [(u, v, time)] |}.

(** [G.nodes[v]]: the attributes of [v], if it has any. *)
Definition node_data (G : DiGraph) (v : nat) : option NodeData :=
  match find (fun p => Nat.eqb (fst p) v) (nodes G) with
  | Some p => snd p
  | None => None
  end.

(** [G.predecessors(v)] *)
Definition predecessors (G : DiGraph) (v : nat) : list nat :=
  map (fun e => fst (fst e))
      (filter (fun e => Nat.eqb (snd (fst e)) v) (edges G)).

(** The attributes given to the node of boat [b], lines 129-130. *)
Definition boat_data (inst : Instance) (a : Assignment) (b : nat) : NodeData :=
  {| color := if hosts a b then Red else Blue;
     node_crew_size := crew inst b;
     node_capacity := cap inst b |}.

(** The graph of period [t], lines 127-134. *)
Definition build_graph (inst : Instance) (a : Assignment) (t : nat) : DiGraph :=
  let G0 := fold_left (fun G b => add_node G (b + 1) (boat_data inst a b))
                      (range (n_boats inst)) empty_graph in
  fold_left (fun G i =>
    fold_left (fun G j => if (b2z (boats a t i j) =? 1)%Z
                          then add_edge G (i + 1) (j + 1) (t + 1) else G)
              (range (n_boats inst)) G)
    (range (n_boats inst)) G0.

(** One turn of the inner loop of lines 131-134, for the pair [p] of a
    visiting and a visited boat. *)
Definition edge_step (flag : nat -> nat -> bool) (time : nat)
  (G : DiGraph) (p : nat * nat) : DiGraph :=
  if (b2z (flag (fst p) (snd p)) =? 1)%Z
  then add_edge G (fst p + 1) (snd p + 1) time else G.

(** [graphs], line 135. *)
Definition graphs (inst : Instance) (a : Assignment) : list DiGraph :=
  map (build_graph inst a) (range (available_halfhours inst)).

(** [sum(G.nodes[v]["crew_size"] for v in vs)], failing on a node without
    attributes. *)
Fixpoint crew_sum (G : DiGraph) (vs : list nat) : option Z :=
  match vs with
  | [] => Some 0%Z
  | v :: vs' =>
      match node_data G v, crew_sum G vs' with
      | Some d, Some s => Some (node_crew_size d + s)%Z
      | _, _ => None
      end
  end.

(** [total_visitors] of line 155, for the node [v]. *)
Definition total_visitors (G : DiGraph) (v : nat) : option Z :=
  match node_data G v, crew_sum G (predecessors G v) with
  | Some d, Some s => Some (node_crew_size d + s)%Z
  | _, _ => None
  end.

(** The schedule with boat [h] as the only host: every other boat visits it
    in the first period. *)
Definition single_host (h : nat) : Assignment :=
  {| hosts := fun b => Nat.eqb b h;
     boats := fun t i j => Nat.eqb t 0 && negb (Nat.eqb i h) && Nat.eqb j h |}.

(** ** Sums of 0/1 terms *)

Lemma in_range (i n : nat) : In i (range n) <-> i < n.
Proof. unfold range. rewrite in_seq. lia. Qed.

Lemma in_range_from (k lo hi : nat) : In k (range_from lo hi) <-> lo <= k < hi.
Proof. unfold range_from. rewrite in_seq. lia. Qed.

Lemma b2z_range (b : bool) : (0 <= b2z b <= 1)%Z.
Proof. destruct b; simpl; lia. Qed.

Lemma b2z_true (b : bool) : (0 < b2z b)%Z -> b = true.
Proof. destruct b; simpl; [reflexivity | lia]. Qed.

Lemma b2z_false (b : bool) : b2z b = 0%Z -> b = false.
Proof. destruct b; simpl; [lia | reflexivity]. Qed.

Lemma sum_app (l1 l2 : list Z) : sum (l1 ++ l2) = (sum l1 + sum l2)%Z.
Proof. induction l1 as [|x l1 IH]; simpl; [reflexivity | rewrite IH; lia]. Qed.

Lemma sum_nonneg (l : list Z) :
  (forall x, In x l -> (0 <= x)%Z) -> (0 <= sum l)%Z.
Proof.
  induction l as [|x l IH]; simpl; intros H; [lia|].
  assert (0 <= x)%Z by (apply H; now left).
  assert (0 <= sum l)%Z by (apply IH; intros y Hy; apply H; now right).
  lia.
Qed.

Lemma sum_zero (l : list Z) :
  (forall x, In x l -> (0 <= x)%Z) -> sum l = 0%Z ->
  forall x, In x l -> x = 0%Z.
Proof.
  induction l as [|y l IH]; simpl; intros Hpos Hsum x Hx; [contradiction|].
  assert (0 <= y)%Z by (apply Hpos; now left).
  assert (0 <= sum l)%Z by (apply sum_nonneg; intros z Hz; apply Hpos; now right).
  destruct Hx as [<- | Hx]; [lia|].
  apply IH; auto; lia.
Qed.

Lemma sum_pos (l : list Z) : (0 < sum l)%Z -> exists x, In x l /\ (0 < x)%Z.
Proof.
  induction l as [|y l IH]; simpl; intros H; [lia|].
  destruct (Z_lt_le_dec 0 y) as [Hy | Hy].
  - exists y; auto.
  - destruct IH as (x & Hx & Hpos); [lia|]. exists x; auto.
Qed.

Lemma sum_flags_nonneg (A : Type) (f : A -> bool) (l : list A) :
  (0 <= sum (map (fun x => b2z (f x)) l))%Z.
Proof.
  apply sum_nonneg. intros x Hx. apply in_map_iff in Hx.
  destruct Hx as (y & <- & _). apply b2z_range.
Qed.

Lemma sum_flags_le (A : Type) (f : A -> bool) (l : list A) :
  (sum (map (fun x => b2z (f x)) l) <= Z.of_nat (length l))%Z.
Proof.
  induction l as [|x l IH]; simpl length; simpl map; simpl sum; [lia|].
  pose proof (b2z_range (f x)). lia.
Qed.

Lemma sum_flags_zero (A : Type) (f : A -> bool) (l : list A) :
  sum (map (fun x => b2z (f x)) l) = 0%Z -> forall x, In x l -> f x = false.
Proof.
  intros H x Hx. apply b2z_false.
  apply sum_zero with (l := map (fun x => b2z (f x)) l); auto.
  - intros y Hy. apply in_map_iff in Hy. destruct Hy as (z & <- & _).
    apply b2z_range.
  - apply in_map_iff. exists x; auto.
Qed.

Lemma sum_flags_pos (A : Type) (f : A -> bool) (l : list A) :
  (0 < sum (map (fun x => b2z (f x)) l))%Z -> exists x, In x l /\ f x = true.
Proof.
  intros H. apply sum_pos in H. destruct H as (y & Hy & Hpos).
  apply in_map_iff in Hy. destruct Hy as (x & <- & Hx).
  exists x; split; auto using b2z_true.
Qed.

Lemma sum_flags_short (A : Type) (f : A -> bool) (l : list A) :
  (sum (map (fun x => b2z (f x)) l) < Z.of_nat (length l))%Z ->
  exists x, In x l /\ f x = false.
Proof.
  induction l as [|y l IH]; simpl length; simpl map; simpl sum; intros H; [lia|].
  destruct (f y) eqn:Hy.
  - destruct IH as (x & Hx & Hf); [change (b2z true) with 1%Z in H; lia|].
    exists x; split; [now right | assumption].
  - exists y; split; [now left | assumption].
Qed.

Lemma length_range (n : nat) : length (range n) = n.
Proof. unfold range. apply length_seq. Qed.

Lemma sum_flags_negb (A : Type) (f : A -> bool) (l : list A) :
  sum (map (fun x => b2z (negb (f x))) l)
  = (Z.of_nat (length l) - sum (map (fun x => b2z (f x)) l))%Z.
Proof.
  induction l as [|x l IH]; [reflexivity|].
  cbn [map sum fold_right length]. fold (sum (map (fun x => b2z (negb (f x))) l)).
  fold (sum (map (fun x => b2z (f x)) l)). rewrite IH, Nat2Z.inj_succ.
  destruct (f x); cbn [negb b2z]; lia.
Qed.

(** The objective counts the boats that are not hosts. *)
Lemma objective_host_count (inst : Instance) (a : Assignment) :
  objective inst a = (Z.of_nat (n_boats inst) - host_count inst a)%Z.
Proof.
  unfold objective, host_count.
  rewrite (sum_flags_negb _ (hosts a)), length_range. reflexivity.
Qed.

Lemma length_flat_map_const (A B : Type) (f : A -> list B) (k : nat)
  (l : list A) :
  (forall x, In x l -> length (f x) = k) ->
  length (flat_map f l) = k * length l.
Proof.
  induction l as [|x l IH]; intros H; [cbn; lia|].
  cbn [flat_map length]. rewrite length_app.
  rewrite (H x) by now left.
  rewrite IH by (intros y Hy; apply H; now right). lia.
Qed.

(** ** Which constraints the script posts *)

Lemma satisfies_In (m : Model) (a : Assignment) :
  satisfies m a = true -> forall c, In c m -> c a = true.
Proof. unfold satisfies. rewrite forallb_forall. auto. Qed.

Section Posted.

Variable inst : Instance.

Lemma posted_capacity_limit (t b : nat) :
  t < available_halfhours inst -> b < n_boats inst ->
  In (capacity_limit inst t b) (model inst).
Proof.
  intros Ht Hb. unfold model. apply in_or_app. left.
  unfold C1. apply in_flat_map. exists t. split; [now apply in_range|].
  apply in_flat_map. exists b. split; [now apply in_range|]. simpl; auto.
Qed.

Lemma posted_no_self_visit (t b : nat) :
  t < available_halfhours inst -> b < n_boats inst ->
  In (no_self_visit t b) (model inst).
Proof.
  intros Ht Hb. unfold model. apply in_or_app. left.
  unfold C1. apply in_flat_map. exists t. split; [now apply in_range|].
  apply in_flat_map. exists b. split; [now apply in_range|]. simpl; auto.
Qed.

Lemma posted_host_has_guests (b : nat) :
  b < n_boats inst -> In (host_has_guests inst b) (model inst).
Proof.
  intros Hb. unfold model. rewrite !in_app_iff. right; left.
  unfold C2. apply in_flat_map. exists b. split; [now apply in_range|].
  simpl; auto.
Qed.

Lemma posted_guest_has_no_guests (b : nat) :
  b < n_boats inst -> In (guest_has_no_guests inst b) (model inst).
Proof.
  intros Hb. unfold model. rewrite !in_app_iff. right; left.
  unfold C2. apply in_flat_map. exists b. split; [now apply in_range|].
  simpl; auto.
Qed.

Lemma posted_host_stays (b : nat) :
  b < n_boats inst -> In (host_stays inst b) (model inst).
Proof.
  intros Hb. unfold model. rewrite !in_app_iff. right; right; left.
  unfold C3. apply in_map. now apply in_range.
Qed.

Lemma posted_guest_visits (b : nat) :
  b < n_boats inst -> In (guest_visits inst b) (model inst).
Proof.
  intros Hb. unfold model. rewrite !in_app_iff. do 3 right; left.
  unfold C4. apply in_map. now apply in_range.
Qed.

Lemma posted_visits_once (i j : nat) :
  i < n_boats inst -> j < n_boats inst -> i <> j ->
  In (visits_once inst i j) (model inst).
Proof.
  intros Hi Hj Hij. unfold model. rewrite !in_app_iff. do 4 right; left.
  unfold C5. apply in_flat_map. exists i. split; [now apply in_range|].
  apply in_flat_map. exists j. split; [now apply in_range|].
  apply Nat.eqb_neq in Hij. rewrite Hij. simpl; auto.
Qed.

Lemma posted_one_per_slot (ah i : nat) :
  ah < available_halfhours inst -> i < n_boats inst ->
  In (one_per_slot inst ah i) (model inst).
Proof.
  intros Ht Hi. unfold model. rewrite !in_app_iff. do 5 right; left.
  unfold C6. apply in_flat_map. exists ah. split; [now apply in_range|].
  apply in_map. now apply in_range.
Qed.

Lemma posted_meet_once (i k : nat) :
  i < k -> k < n_boats inst -> In (meet_once inst i k) (model inst).
Proof.
  intros Hik Hk. unfold model. rewrite !in_app_iff. do 6 right; left.
  unfold C7. apply in_flat_map. exists i. split; [apply in_range; lia|].
  apply in_map. apply in_range_from. lia.
Qed.

Lemma posted_C8 : In (C8 inst) (model inst).
Proof. unfold model. rewrite !in_app_iff. do 7 right. simpl; auto. Qed.

Lemma posted_C9 : In (C9 inst) (model inst).
Proof. unfold model. rewrite !in_app_iff. do 7 right. simpl; auto. Qed.

End Posted.

(** ** Reading a posted constraint off an accepted valuation *)

Section Accepted.

Variable inst : Instance.
Variable a : Assignment.
Hypothesis Hacc : accepted inst a = true.

Lemma accepted_holds (c : Constraint) : In c (model inst) -> c a = true.
Proof. apply satisfies_In. exact Hacc. Qed.

Lemma accepted_capacity (t b : nat) :
  t < available_halfhours inst -> b < n_boats inst ->
  (guests_aboard inst t b a + crew inst b <= cap inst b)%Z.
Proof.
  intros Ht Hb.
  pose proof (accepted_holds _ (posted_capacity_limit inst _ _ Ht Hb)) as H.
  unfold capacity_limit in H. now apply Z.leb_le in H.
Qed.

Lemma accepted_no_self (t b : nat) :
  t < available_halfhours inst -> b < n_boats inst -> boats a t b b = false.
Proof.
  intros Ht Hb.
  pose proof (accepted_holds _ (posted_no_self_visit inst _ _ Ht Hb)) as H.
  unfold no_self_visit in H. apply Z.eqb_eq in H. now apply b2z_false.
Qed.

Lemma accepted_host_visited (b : nat) :
  b < n_boats inst -> hosts a b = true -> (0 < visits_to inst b a)%Z.
Proof.
  intros Hb Hh.
  pose proof (accepted_holds _ (posted_host_has_guests inst _ Hb)) as H.
  unfold host_has_guests in H. rewrite Hh in H. cbn [implb negb andb] in H.
  now apply Z.ltb_lt in H.
Qed.

Lemma accepted_guest_unvisited (b : nat) :
  b < n_boats inst -> hosts a b = false -> visits_to inst b a = 0%Z.
Proof.
  intros Hb Hh.
  pose proof (accepted_holds _ (posted_guest_has_no_guests inst _ Hb)) as H.
  unfold guest_has_no_guests in H. rewrite Hh in H. cbn [implb negb andb] in H.
  now apply Z.eqb_eq in H.
Qed.

Lemma accepted_host_stays (b : nat) :
  b < n_boats inst -> hosts a b = true -> visits_from inst b a = 0%Z.
Proof.
  intros Hb Hh.
  pose proof (accepted_holds _ (posted_host_stays inst _ Hb)) as H.
  unfold host_stays in H. rewrite Hh in H. cbn [implb negb andb] in H.
  now apply Z.eqb_eq in H.
Qed.

Lemma accepted_guest_visits (b : nat) :
  b < n_boats inst -> hosts a b = false -> (0 < visits_from inst b a)%Z.
Proof.
  intros Hb Hh.
  pose proof (accepted_holds _ (posted_guest_visits inst _ Hb)) as H.
  unfold guest_visits in H. rewrite Hh in H. cbn [implb negb andb] in H.
  now apply Z.ltb_lt in H.
Qed.

Lemma accepted_visits_once (i j : nat) :
  i < n_boats inst -> j < n_boats inst -> i <> j ->
  hosts a i = false -> hosts a j = true -> pair_visits inst i j a = 1%Z.
Proof.
  intros Hi Hj Hij Hgi Hhj.
  pose proof (accepted_holds _ (posted_visits_once inst _ _ Hi Hj Hij)) as H.
  unfold visits_once in H. rewrite Hgi, Hhj in H. cbn [implb negb andb] in H.
  now apply Z.eqb_eq in H.
Qed.

Lemma accepted_one_per_slot (ah i : nat) :
  ah < available_halfhours inst -> i < n_boats inst ->
  hosts a i = false -> (slot_visits inst ah i a <= 1)%Z.
Proof.
  intros Ht Hi Hg.
  pose proof (accepted_holds _ (posted_one_per_slot inst _ _ Ht Hi)) as H.
  unfold one_per_slot in H. rewrite Hg in H. cbn [implb negb andb] in H.
  now apply Z.leb_le in H.
Qed.

Lemma accepted_meet_once_ordered (i k : nat) :
  i < k -> k < n_boats inst ->
  hosts a i = false -> hosts a k = false -> (meetings inst i k a <= 1)%Z.
Proof.
  intros Hik Hk Hgi Hgk.
  pose proof (accepted_holds _ (posted_meet_once inst _ _ Hik Hk)) as H.
  unfold meet_once in H. rewrite Hgi, Hgk in H. cbn [implb negb andb] in H.
  now apply Z.leb_le in H.
Qed.

Lemma accepted_host_count : (0 < host_count inst a < Z.of_nat (n_boats inst))%Z.
Proof.
  pose proof (accepted_holds _ (posted_C8 inst)) as H8.
  pose proof (accepted_holds _ (posted_C9 inst)) as H9.
  unfold C8 in H8. unfold C9 in H9.
  apply Z.ltb_lt in H8. apply Z.ltb_lt in H9. lia.
Qed.

End Accepted.

(** ** Counting with 0/1 sums over duplicate-free index lists *)

Lemma sum_flags_at_most_one (A : Type) (f : A -> bool) (l : list A) :
  NoDup l -> (sum (map (fun x => b2z (f x)) l) <= 1)%Z ->
  forall x y, In x l -> In y l -> f x = true -> f y = true -> x = y.
Proof.
  induction l as [|z l IH]; intros Hnd Hsum x y Hx Hy Hfx Hfy;
    [contradiction|].
  inversion Hnd as [|? ? Hz Hnd']; subst.
  cbn [map sum fold_right] in Hsum.
  fold (sum (map (fun x => b2z (f x)) l)) in Hsum.
  pose proof (sum_flags_nonneg A f l) as Hpos.
  pose proof (b2z_range (f z)) as Hfz.
  assert (Hrest : f z = true -> forall w, In w l -> f w = false).
  { intros E. rewrite E in Hsum. cbn [b2z] in Hsum.
    apply sum_flags_zero. lia. }
  destruct Hx as [-> | Hx], Hy as [-> | Hy]; auto.
  - rewrite (Hrest Hfx y Hy) in Hfy. discriminate.
  - rewrite (Hrest Hfy x Hx) in Hfx. discriminate.
  - apply IH; auto. lia.
Qed.

Lemma range_NoDup (n : nat) : NoDup (range n).
Proof. unfold range. apply seq_NoDup. Qed.

(** [meetings] counts the shared visits, and does not depend on the order
    in which the two boats are named. *)
Lemma sum_products_count (f g : nat -> nat -> bool) (lt ln : list nat) :
  sum (flat_map (fun t => map (fun h => b2z (f t h) * b2z (g t h))%Z ln) lt)
  = Z.of_nat (length (filter (fun p => f (fst p) (snd p) && g (fst p) (snd p))
                             (list_prod lt ln))).
Proof.
  induction lt as [|t lt IH]; [reflexivity|].
  cbn [flat_map list_prod].
  rewrite sum_app, filter_app, length_app, Nat2Z.inj_add, IH.
  f_equal. clear IH.
  induction ln as [|h ln IH]; [reflexivity|].
  cbn [map sum fold_right filter fst snd].
  fold (sum (map (fun h => b2z (f t h) * b2z (g t h))%Z ln)). rewrite IH.
  destruct (f t h), (g t h); cbn [andb b2z length]; lia.
Qed.

Lemma meetings_shared_visits (inst : Instance) (a : Assignment) (i k : nat) :
  meetings inst i k a = Z.of_nat (length (shared_visits inst a i k)).
Proof.
  unfold meetings, shared_visits.
  apply (sum_products_count (fun t h => boats a t i h)
                            (fun t h => boats a t k h)).
Qed.

Lemma meetings_sym (inst : Instance) (a : Assignment) (i k : nat) :
  meetings inst i k a = meetings inst k i a.
Proof.
  unfold meetings. f_equal. apply flat_map_ext. intros t.
  apply map_ext. intros h. apply Z.mul_comm.
Qed.

(** ** The constraint families, read on an accepted valuation *)

(** Claim C1: in an accepted valuation, a guest [i] and a host [j] other than [i]
    have exactly one visit of [i] to [j] over all periods: the sum of
    [boats[t, i, j]] over the periods is 1. *)
Theorem every_guest_visits_every_host_once
  (inst : Instance) (a : Assignment) (i j : nat) :
  accepted inst a = true ->
  i < n_boats inst -> j < n_boats inst -> i <> j ->
  hosts a i = false -> hosts a j = true ->
  sum (map (fun t => b2z (boats a t i j)) (range (available_halfhours inst)))
  = 1%Z
  /\ exists t, t < available_halfhours inst /\ boats a t i j = true /\
       forall t', t' < available_halfhours inst ->
                  boats a t' i j = true -> t' = t.
Proof.
  intros Hacc Hi Hj Hij Hgi Hhj.
  pose proof (accepted_visits_once inst a Hacc i j Hi Hj Hij Hgi Hhj) as H.
  unfold pair_visits in H. split; [exact H|].
  destruct (sum_flags_pos nat (fun t => boats a t i j)
              (range (available_halfhours inst))) as (t & Ht & Hv); [lia|].
  exists t. split; [now apply in_range|]. split; [exact Hv|].
  intros t' Ht' Hv'.
  apply (sum_flags_at_most_one nat (fun t => boats a t i j)
           (range (available_halfhours inst))); auto using range_NoDup.
  - lia.
  - now apply in_range.
Qed.

Lemma every_guest_visits_every_host_once_witness :
  accepted inst3 sched3 = true /\
  (sum (map (fun t => b2z (boats sched3 t 1 0))
            (range (available_halfhours inst3))) = 1%Z
   /\ exists t, t < available_halfhours inst3 /\ boats sched3 t 1 0 = true /\
        forall t', t' < available_halfhours inst3 ->
                   boats sched3 t' 1 0 = true -> t' = t).
Proof.
  split; [reflexivity|].
  apply (every_guest_visits_every_host_once inst3 sched3 1 0);
    try reflexivity; simpl; lia.
Defined.

(** Claim C2: in an accepted valuation, in every period the crew of a boat plus the
    crews of the boats visiting it fit its capacity, and no boat visits
    itself. *)
Theorem capacity_respected_and_no_self_visit
  (inst : Instance) (a : Assignment) (t b : nat) :
  accepted inst a = true ->
  t < available_halfhours inst -> b < n_boats inst ->
  (crew inst b
   + sum (map (fun i => b2z (boats a t i b) * crew inst i) (range (n_boats inst)))
   <= cap inst b)%Z
  /\ boats a t b b = false.
Proof.
  intros Hacc Ht Hb. split.
  - pose proof (accepted_capacity inst a Hacc t b Ht Hb) as H.
    unfold guests_aboard in H. lia.
  - exact (accepted_no_self inst a Hacc t b Ht Hb).
Qed.

Lemma capacity_respected_and_no_self_visit_witness :
  accepted inst3 sched3 = true /\
  ((crew inst3 0
    + sum (map (fun i => b2z (boats sched3 0 i 0) * crew inst3 i)
               (range (n_boats inst3)))
    <= cap inst3 0)%Z
   /\ boats sched3 0 0 0 = false).
Proof.
  split; [reflexivity|].
  apply (capacity_respected_and_no_self_visit inst3 sched3 0 0);
    try reflexivity; simpl; lia.
Defined.

(** Every term of a double 0/1 sum that is zero is zero. *)
Lemma double_sum_zero (f : nat -> nat -> bool) (lt ln : list nat) :
  sum (map (fun t => sum (map (fun i => b2z (f t i)) ln)) lt) = 0%Z ->
  forall t i, In t lt -> In i ln -> f t i = false.
Proof.
  intros H t i Ht Hi.
  apply (sum_flags_zero nat (f t) ln); [|exact Hi].
  apply sum_zero with (l := map (fun t => sum (map (fun i => b2z (f t i)) ln)) lt).
  - intros x Hx. apply in_map_iff in Hx. destruct Hx as (t' & <- & _).
    apply sum_flags_nonneg.
  - exact H.
  - apply in_map_iff. exists t. auto.
Qed.

Lemma double_sum_pos (f : nat -> nat -> bool) (lt ln : list nat) :
  (0 < sum (map (fun t => sum (map (fun i => b2z (f t i)) ln)) lt))%Z ->
  exists t i, In t lt /\ In i ln /\ f t i = true.
Proof.
  intros H. apply sum_pos in H. destruct H as (x & Hx & Hpos).
  apply in_map_iff in Hx. destruct Hx as (t & <- & Ht).
  apply sum_flags_pos in Hpos. destruct Hpos as (i & Hi & Hf).
  exists t, i. auto.
Qed.

(** Claim C3: in an accepted valuation a host is visited at least once and visits
    nobody, a boat that is not a host is never visited and visits at least
    once; hence every visit goes from a boat that is not a host to a host. *)
Theorem roles_and_visits_coupled (inst : Instance) (a : Assignment) :
  accepted inst a = true ->
  (forall b, b < n_boats inst -> hosts a b = true ->
     (exists t i, t < available_halfhours inst /\ i < n_boats inst /\
                  boats a t i b = true) /\
     (forall t j, t < available_halfhours inst -> j < n_boats inst ->
                  boats a t b j = false)) /\
  (forall b, b < n_boats inst -> hosts a b = false ->
     (forall t i, t < available_halfhours inst -> i < n_boats inst ->
                  boats a t i b = false) /\
     (exists t j, t < available_halfhours inst /\ j < n_boats inst /\
                  boats a t b j = true)) /\
  (forall t i j, t < available_halfhours inst -> i < n_boats inst ->
                 j < n_boats inst -> boats a t i j = true ->
                 hosts a i = false /\ hosts a j = true).
Proof.
  intros Hacc.
  assert (Hhost : forall b, b < n_boats inst -> hosts a b = true ->
     (exists t i, t < available_halfhours inst /\ i < n_boats inst /\
                  boats a t i b = true) /\
     (forall t j, t < available_halfhours inst -> j < n_boats inst ->
                  boats a t b j = false)).
  { intros b Hb Hh. split.
    - pose proof (accepted_host_visited inst a Hacc b Hb Hh) as H.
      apply (double_sum_pos (fun t i => boats a t i b)) in H.
      destruct H as (t & i & Ht & Hi & Hv).
      exists t, i. rewrite in_range in Ht, Hi. auto.
    - intros t j Ht Hj.
      pose proof (accepted_host_stays inst a Hacc b Hb Hh) as H.
      apply (double_sum_zero (fun t j => boats a t b j) _ _ H);
        now apply in_range. }
  assert (Hguest : forall b, b < n_boats inst -> hosts a b = false ->
     (forall t i, t < available_halfhours inst -> i < n_boats inst ->
                  boats a t i b = false) /\
     (exists t j, t < available_halfhours inst /\ j < n_boats inst /\
                  boats a t b j = true)).
  { intros b Hb Hg. split.
    - intros t i Ht Hi.
      pose proof (accepted_guest_unvisited inst a Hacc b Hb Hg) as H.
      apply (double_sum_zero (fun t i => boats a t i b) _ _ H);
        now apply in_range.
    - pose proof (accepted_guest_visits inst a Hacc b Hb Hg) as H.
      apply (double_sum_pos (fun t j => boats a t b j)) in H.
      destruct H as (t & j & Ht & Hj & Hv).
      exists t, j. rewrite in_range in Ht, Hj. auto. }
  split; [exact Hhost|]. split; [exact Hguest|].
  intros t i j Ht Hi Hj Hv. split.
  - destruct (hosts a i) eqn:Hh; [|reflexivity].
    destruct (Hhost i Hi Hh) as [_ Hno].
    rewrite (Hno t j Ht Hj) in Hv. discriminate.
  - destruct (hosts a j) eqn:Hh; [reflexivity|].
    destruct (Hguest j Hj Hh) as [Hno _].
    rewrite (Hno t i Ht Hi) in Hv. discriminate.
Qed.

Lemma roles_and_visits_coupled_witness :
  accepted inst3 sched3 = true /\
  ((forall b, b < n_boats inst3 -> hosts sched3 b = true ->
      (exists t i, t < available_halfhours inst3 /\ i < n_boats inst3 /\
                   boats sched3 t i b = true) /\
      (forall t j, t < available_halfhours inst3 -> j < n_boats inst3 ->
                   boats sched3 t b j = false)) /\
   (forall b, b < n_boats inst3 -> hosts sched3 b = false ->
      (forall t i, t < available_halfhours inst3 -> i < n_boats inst3 ->
                   boats sched3 t i b = false) /\
      (exists t j, t < available_halfhours inst3 /\ j < n_boats inst3 /\
                   boats sched3 t b j = true)) /\
   (forall t i j, t < available_halfhours inst3 -> i < n_boats inst3 ->
                  j < n_boats inst3 -> boats sched3 t i j = true ->
                  hosts sched3 i = false /\ hosts sched3 j = true)).
Proof.
  split; [reflexivity|].
  apply (roles_and_visits_coupled inst3 sched3). reflexivity.
Defined.

(** Claim C4: in an accepted valuation two distinct boats that are not hosts are
    aboard the same boat in the same period in at most one (period, host)
    combination, whichever of the two is named first. *)
Theorem guests_meet_at_most_once
  (inst : Instance) (a : Assignment) (i k : nat) :
  accepted inst a = true ->
  i < n_boats inst -> k < n_boats inst -> i <> k ->
  hosts a i = false -> hosts a k = false ->
  (meetings inst i k a <= 1)%Z /\ length (shared_visits inst a i k) <= 1.
Proof.
  intros Hacc Hi Hk Hik Hgi Hgk.
  assert (H : (meetings inst i k a <= 1)%Z).
  { destruct (Nat.lt_ge_cases i k) as [Hlt | Hge].
    - exact (accepted_meet_once_ordered inst a Hacc i k Hlt Hk Hgi Hgk).
    - rewrite meetings_sym.
      apply (accepted_meet_once_ordered inst a Hacc k i); auto; lia. }
  split; [exact H|].
  rewrite meetings_shared_visits in H. lia.
Qed.

Lemma guests_meet_at_most_once_witness :
  accepted inst3 sched3 = true /\
  ((meetings inst3 2 1 sched3 <= 1)%Z /\
   length (shared_visits inst3 sched3 2 1) <= 1).
Proof.
  split; [reflexivity|].
  apply (guests_meet_at_most_once inst3 sched3 2 1);
    try reflexivity; simpl; lia.
Defined.

(** Claim C5: in an accepted valuation a boat that is not a host makes at most one
    visit in a period: the sum of [boats[t, i, j]] over the destinations [j]
    is at most 1, so two destinations of the same period coincide. *)
Theorem guest_on_one_boat_per_slot
  (inst : Instance) (a : Assignment) (t i : nat) :
  accepted inst a = true ->
  t < available_halfhours inst -> i < n_boats inst -> hosts a i = false ->
  (sum (map (fun j => b2z (boats a t i j)) (range (n_boats inst))) <= 1)%Z /\
  (forall j j', j < n_boats inst -> j' < n_boats inst ->
                boats a t i j = true -> boats a t i j' = true -> j = j').
Proof.
  intros Hacc Ht Hi Hg.
  pose proof (accepted_one_per_slot inst a Hacc t i Ht Hi Hg) as H.
  unfold slot_visits in H. split; [exact H|].
  intros j j' Hj Hj' Hv Hv'.
  apply (sum_flags_at_most_one nat (fun j => boats a t i j)
           (range (n_boats inst))); auto using range_NoDup;
    now apply in_range.
Qed.

Lemma guest_on_one_boat_per_slot_witness :
  accepted inst3 sched3 = true /\
  ((sum (map (fun j => b2z (boats sched3 0 1 j)) (range (n_boats inst3)))
    <= 1)%Z /\
   (forall j j', j < n_boats inst3 -> j' < n_boats inst3 ->
                 boats sched3 0 1 j = true -> boats sched3 0 1 j' = true ->
                 j = j')).
Proof.
  split; [reflexivity|].
  apply (guest_on_one_boat_per_slot inst3 sched3 0 1);
    try reflexivity; simpl; lia.
Defined.

(** Claim C6: in an accepted valuation the number of hosts lies strictly between 0
    and the number of boats: some boat is a host and some boat is not. *)
Theorem host_count_strictly_between
  (inst : Instance) (a : Assignment) :
  accepted inst a = true ->
  (1 <= host_count inst a <= Z.of_nat (n_boats inst) - 1)%Z /\
  (exists b, b < n_boats inst /\ hosts a b = true) /\
  (exists b, b < n_boats inst /\ hosts a b = false).
Proof.
  intros Hacc.
  pose proof (accepted_host_count inst a Hacc) as H.
  split; [lia|]. unfold host_count in H. split.
  - destruct (sum_flags_pos nat (hosts a) (range (n_boats inst)))
      as (b & Hb & Hh); [lia|].
    exists b. split; [now apply in_range | exact Hh].
  - destruct (sum_flags_short nat (hosts a) (range (n_boats inst)))
      as (b & Hb & Hh); [rewrite length_range; lia|].
    exists b. split; [now apply in_range | exact Hh].
Qed.

Lemma host_count_strictly_between_witness :
  accepted inst3 sched3 = true /\
  ((1 <= host_count inst3 sched3 <= Z.of_nat (n_boats inst3) - 1)%Z /\
   (exists b, b < n_boats inst3 /\ hosts sched3 b = true) /\
   (exists b, b < n_boats inst3 /\ hosts sched3 b = false)).
Proof.
  split; [reflexivity|].
  apply (host_count_strictly_between inst3 sched3). reflexivity.
Defined.

(** ** The model reads only the variables it declares *)

Lemma sum_map_ext_in (f g : nat -> Z) (l : list nat) :
  (forall x, In x l -> f x = g x) -> sum (map f l) = sum (map g l).
Proof. intros H. f_equal. now apply map_ext_in. Qed.

Lemma sum_flat_map_ext_in (f g : nat -> list Z) (l : list nat) :
  (forall x, In x l -> f x = g x) -> sum (flat_map f l) = sum (flat_map g l).
Proof.
  intros H. rewrite !flat_map_concat_map. do 2 f_equal. now apply map_ext_in.
Qed.

Section Agree.

Variable inst : Instance.
Variables a a' : Assignment.
Hypothesis Hag : agree inst a a'.

Lemma agree_hosts (b : nat) : In b (range (n_boats inst)) -> hosts a b = hosts a' b.
Proof. rewrite in_range. apply Hag. Qed.

Lemma agree_boats (t i j : nat) :
  In t (range (available_halfhours inst)) -> In i (range (n_boats inst)) ->
  In j (range (n_boats inst)) -> boats a t i j = boats a' t i j.
Proof. rewrite !in_range. apply Hag. Qed.

Lemma agree_guests_aboard (t b : nat) :
  In t (range (available_halfhours inst)) -> In b (range (n_boats inst)) ->
  guests_aboard inst t b a = guests_aboard inst t b a'.
Proof.
  intros Ht Hb. unfold guests_aboard. apply sum_map_ext_in. intros i Hi.
  now rewrite agree_boats.
Qed.

Lemma agree_visits_to (b : nat) :
  In b (range (n_boats inst)) -> visits_to inst b a = visits_to inst b a'.
Proof.
  intros Hb. unfold visits_to. apply sum_map_ext_in. intros t Ht.
  apply sum_map_ext_in. intros i Hi. now rewrite agree_boats.
Qed.

Lemma agree_visits_from (b : nat) :
  In b (range (n_boats inst)) -> visits_from inst b a = visits_from inst b a'.
Proof.
  intros Hb. unfold visits_from. apply sum_map_ext_in. intros t Ht.
  apply sum_map_ext_in. intros j Hj. now rewrite agree_boats.
Qed.

Lemma agree_pair_visits (i j : nat) :
  In i (range (n_boats inst)) -> In j (range (n_boats inst)) ->
  pair_visits inst i j a = pair_visits inst i j a'.
Proof.
  intros Hi Hj. unfold pair_visits. apply sum_map_ext_in. intros t Ht.
  now rewrite agree_boats.
Qed.

Lemma agree_slot_visits (ah i : nat) :
  In ah (range (available_halfhours inst)) -> In i (range (n_boats inst)) ->
  slot_visits inst ah i a = slot_visits inst ah i a'.
Proof.
  intros Ht Hi. unfold slot_visits. apply sum_map_ext_in. intros j Hj.
  now rewrite agree_boats.
Qed.

Lemma agree_meetings (i k : nat) :
  In i (range (n_boats inst)) -> In k (range (n_boats inst)) ->
  meetings inst i k a = meetings inst i k a'.
Proof.
  intros Hi Hk. unfold meetings. apply sum_flat_map_ext_in. intros t Ht.
  apply map_ext_in. intros h Hh. now rewrite !(agree_boats t _ h).
Qed.

Lemma agree_host_count : host_count inst a = host_count inst a'.
Proof.
  unfold host_count. apply sum_map_ext_in. intros b Hb.
  now rewrite agree_hosts.
Qed.

Lemma agree_objective : objective inst a = objective inst a'.
Proof.
  unfold objective. apply sum_map_ext_in. intros b Hb.
  now rewrite agree_hosts.
Qed.

Lemma agree_constraint (c : Constraint) : In c (model inst) -> c a = c a'.
Proof.
  unfold model. rewrite !in_app_iff.
  intros [H | [H | [H | [H | [H | [H | [H | H]]]]]]].
  - unfold C1 in H. apply in_flat_map in H. destruct H as (t & Ht & H).
    apply in_flat_map in H. destruct H as (b & Hb & [<- | [<- | []]]).
    + unfold capacity_limit. now rewrite agree_guests_aboard.
    + unfold no_self_visit. now rewrite agree_boats.
  - unfold C2 in H. apply in_flat_map in H.
    destruct H as (b & Hb & [<- | [<- | []]]).
    + unfold host_has_guests. now rewrite agree_hosts, agree_visits_to.
    + unfold guest_has_no_guests. now rewrite agree_hosts, agree_visits_to.
  - unfold C3 in H. apply in_map_iff in H. destruct H as (b & <- & Hb).
    unfold host_stays. now rewrite agree_hosts, agree_visits_from.
  - unfold C4 in H. apply in_map_iff in H. destruct H as (b & <- & Hb).
    unfold guest_visits. now rewrite agree_hosts, agree_visits_from.
  - unfold C5 in H. apply in_flat_map in H. destruct H as (i & Hi & H).
    apply in_flat_map in H. destruct H as (j & Hj & H).
    destruct (Nat.eqb i j); [contradiction|]. destruct H as [<- | []].
    unfold visits_once.
    now rewrite (agree_hosts i), (agree_hosts j), agree_pair_visits.
  - unfold C6 in H. apply in_flat_map in H. destruct H as (ah & Ht & H).
    apply in_map_iff in H. destruct H as (i & <- & Hi).
    unfold one_per_slot. now rewrite agree_hosts, agree_slot_visits.
  - unfold C7 in H. apply in_flat_map in H. destruct H as (i & Hi & H).
    apply in_map_iff in H. destruct H as (k & <- & Hk).
    assert (Hk' : In k (range (n_boats inst))).
    { apply in_range. apply in_range_from in Hk. lia. }
    unfold meet_once.
    now rewrite (agree_hosts i), (agree_hosts k), agree_meetings.
  - destruct H as [<- | [<- | []]].
    + unfold C8. now rewrite agree_host_count.
    + unfold C9. now rewrite agree_host_count.
Qed.

Lemma agree_accepted : accepted inst a = accepted inst a'.
Proof.
  unfold accepted, satisfies.
  pose proof agree_constraint as H.
  induction (model inst) as [|c m IH]; [reflexivity|].
  cbn [forallb]. rewrite (H c) by now left.
  rewrite IH; [reflexivity|]. intros c' Hc'. apply H. now right.
Qed.

End Agree.

(** ** The enumeration reaches every valuation of the variables *)

Lemma valuations_complete (K : Type) (eqb : K -> K -> bool) :
  (forall x y, eqb x y = true <-> x = y) ->
  forall (g : K -> bool) (dom : list K),
    exists f, In f (valuations eqb dom) /\ forall k, In k dom -> f k = g k.
Proof.
  intros Heqb g dom. induction dom as [|k ks IH].
  - exists (fun _ => false). split; [now left | intros k []].
  - destruct IH as (f & Hf & Hfg).
    exists (fun x => if eqb x k then g k else f x). split.
    + cbn [valuations]. apply in_flat_map. exists f. split; [exact Hf|].
      destruct (g k); simpl; auto.
    + intros x Hx. destruct (eqb x k) eqn:E.
      * apply Heqb in E. now subst.
      * destruct Hx as [-> | Hx]; [|now apply Hfg].
        assert (eqb x x = true) by now apply Heqb. congruence.
Qed.

Lemma visit_eqb_eq (x y : Visit) : visit_eqb x y = true <-> x = y.
Proof.
  destruct x as [[t i] j], y as [[t' i'] j']. unfold visit_eqb.
  rewrite !andb_true_iff, !Nat.eqb_eq. split.
  - intros [[-> ->] ->]. reflexivity.
  - intros E. inversion E. auto.
Qed.

Lemma in_visit_variables (inst : Instance) (t i j : nat) :
  t < available_halfhours inst -> i < n_boats inst -> j < n_boats inst ->
  In (t, i, j) (visit_variables inst).
Proof.
  intros Ht Hi Hj. unfold visit_variables.
  apply in_flat_map. exists t. split; [now apply in_range|].
  apply in_flat_map. exists i. split; [now apply in_range|].
  apply in_map. now apply in_range.
Qed.

Lemma candidates_complete (inst : Instance) (a : Assignment) :
  exists a', In a' (candidates inst) /\ agree inst a a'.
Proof.
  destruct (valuations_complete nat Nat.eqb Nat.eqb_eq (hosts a)
              (range (n_boats inst))) as (h & Hh & Hhg).
  destruct (valuations_complete Visit visit_eqb visit_eqb_eq
              (fun v => boats a (fst (fst v)) (snd (fst v)) (snd v))
              (visit_variables inst)) as (v & Hv & Hvg).
  exists {| hosts := h; boats := fun t i j => v (t, i, j) |}. split.
  - unfold candidates. apply in_flat_map. exists h. split; [exact Hh|].
    apply in_map_iff. exists v. auto.
  - split.
    + intros b Hb. cbn [hosts]. symmetry. apply Hhg. now apply in_range.
    + intros t i j Ht Hi Hj. cbn [boats]. symmetry.
      apply (Hvg (t, i, j)). now apply in_visit_variables.
Qed.

(** ** The selection keeps a greatest element *)

Lemma best_none (A : Type) (f : A -> Z) (l : list A) :
  best f l = None -> l = [].
Proof.
  destruct l as [|x xs]; [reflexivity|]. cbn [best].
  destruct (best f xs) as [y|]; [|discriminate].
  destruct (f y <=? f x)%Z; discriminate.
Qed.

Lemma best_some (A : Type) (f : A -> Z) (l : list A) (x : A) :
  best f l = Some x -> In x l /\ forall y, In y l -> (f y <= f x)%Z.
Proof.
  revert x. induction l as [|z l IH]; intros x H; [discriminate|].
  cbn [best] in H. destruct (best f l) as [w|] eqn:E.
  - destruct (IH w eq_refl) as [Hw Hmax].
    destruct (f w <=? f z)%Z eqn:Hc; inversion H; subst; clear H.
    + apply Z.leb_le in Hc. split; [now left|].
      intros y [-> | Hy]; [lia|]. specialize (Hmax y Hy). lia.
    + apply Z.leb_gt in Hc. split; [now right|].
      intros y [-> | Hy]; [lia|]. auto.
  - inversion H; subst; clear H. apply best_none in E. subst l.
    split; [now left|]. intros y [-> | []]. lia.
Qed.

(** ** What the solver returns *)

Lemma solve_some (inst : Instance) (a : Assignment) :
  solve inst = Some a -> optimal inst a.
Proof.
  unfold solve, solutions. intros H. apply best_some in H.
  destruct H as [Hin Hmax]. apply filter_In in Hin. destruct Hin as [Hc Hacc].
  split; [exact Hacc|]. intros a' Hacc'.
  destruct (candidates_complete inst a') as (c & Hcin & Hag).
  unfold guest_count. rewrite (agree_objective inst a' c Hag).
  apply Hmax. apply filter_In. split; [exact Hcin|].
  now rewrite <- (agree_accepted inst a' c Hag).
Qed.

Lemma solve_none (inst : Instance) :
  solve inst = None -> forall a, accepted inst a = false.
Proof.
  unfold solve, solutions. intros H a. apply best_none in H.
  destruct (candidates_complete inst a) as (c & Hcin & Hag).
  rewrite (agree_accepted inst a c Hag).
  destruct (accepted inst c) eqn:E; [|reflexivity].
  assert (Hin : In c (filter (accepted inst) (candidates inst)))
    by (apply filter_In; auto).
  rewrite H in Hin. contradiction.
Qed.

Lemma solve_feasible (inst : Instance) :
  feasible inst -> exists a, solve inst = Some a.
Proof.
  intros (a & Hacc). destruct (solve inst) as [s|] eqn:E; [now exists s|].
  rewrite (solve_none inst E a) in Hacc. discriminate.
Qed.

Lemma solve_infeasible (inst : Instance) :
  (forall a, accepted inst a = false) -> solve inst = None.
Proof.
  intros H. destruct (solve inst) as [s|] eqn:E; [|reflexivity].
  apply solve_some in E. destruct E as [Hacc _].
  rewrite H in Hacc. discriminate.
Qed.

Lemma optimal_unique_count (inst : Instance) (a1 a2 : Assignment) :
  optimal inst a1 -> optimal inst a2 ->
  guest_count inst a1 = guest_count inst a2.
Proof.
  intros [H1 M1] [H2 M2]. specialize (M1 a2 H2). specialize (M2 a1 H1). lia.
Qed.



Lemma build_model_two_boats (inst : Instance) :
  2 <= n_boats inst -> build_model inst = Built (model inst).
Proof.
  intros Hn. unfold build_model.
  destruct (n_boats inst) as [|[|n]] eqn:E; [lia | lia | reflexivity].
Qed.

Lemma run_is_run_with_reference (inst : Instance) :
  run inst = run_with (reference_solver inst) inst.
Proof.
  unfold run, run_with. destruct (build_model inst) as [m|e p] eqn:E;
    [|reflexivity].
  unfold build_model in E.
  destruct (boolvar (n_boats inst)) as [e|[|k]]; try discriminate.
  inversion E; subst m. reflexivity.
Qed.





(** ** Instances without a schedule *)




Lemma run_unsat (inst : Instance) :
  2 <= n_boats inst -> (forall a, accepted inst a = false) -> run inst = Unsat.
Proof.
  intros Hn Hno. unfold run. rewrite (build_model_two_boats inst Hn).
  now rewrite (solve_infeasible inst Hno).
Qed.





(** ** Two boats *)

Lemma two_boats_need_room (inst : Instance) (a : Assignment) (h g : nat) :
  n_boats inst = 2 -> h < 2 -> g < 2 -> h <> g ->
  accepted inst a = true -> hosts a h = true -> hosts a g = false ->
  (crew inst 0 + crew inst 1 <= cap inst h)%Z.
Proof.
  intros Hn Hh Hg Hhg Hacc Hhost Hguest.
  assert (Hh' : h < n_boats inst) by lia.
  assert (Hg' : g < n_boats inst) by lia.
  pose proof (accepted_visits_once inst a Hacc g h Hg' Hh' (not_eq_sym Hhg)
                Hguest Hhost) as Hone.
  destruct (sum_flags_pos nat (fun t => boats a t g h)
              (range (available_halfhours inst))) as (t & Ht & Hv);
    [unfold pair_visits in Hone; lia|].
  apply in_range in Ht.
  pose proof (accepted_capacity inst a Hacc t h Ht Hh') as Hcap.
  pose proof (accepted_no_self inst a Hacc t h Ht Hh') as Hself.
  unfold guests_aboard in Hcap. rewrite Hn in Hcap.
  cbn [range seq map sum fold_right] in Hcap.
  destruct h as [|[|h]], g as [|[|g]]; try lia;
    rewrite Hself, Hv in Hcap; cbn [b2z] in Hcap; lia.
Qed.

Lemma two_boats_one_host (inst : Instance) (a : Assignment) :
  n_boats inst = 2 -> accepted inst a = true ->
  (hosts a 0 = true /\ hosts a 1 = false) \/
  (hosts a 1 = true /\ hosts a 0 = false).
Proof.
  intros Hn Hacc. pose proof (accepted_host_count inst a Hacc) as Hc.
  unfold host_count in Hc. rewrite Hn in Hc.
  cbn [range seq map sum fold_right] in Hc.
  destruct (hosts a 0), (hosts a 1); cbn [b2z] in Hc; auto; lia.
Qed.

(** Claim C9, as the model behaves: a two-boat instance in which neither boat has
    room for both crews has no accepted valuation and the run ends in the
    UNSAT branch. *)
Theorem two_boats_without_room_unsat (inst : Instance) :
  n_boats inst = 2 ->
  cannot_accommodate inst 0 -> cannot_accommodate inst 1 ->
  (forall a, accepted inst a = false) /\ solve inst = None /\ run inst = Unsat.
Proof.
  intros Hn H0 H1. unfold cannot_accommodate in H0, H1.
  assert (Hno : forall a, accepted inst a = false).
  { intros a. destruct (accepted inst a) eqn:Hacc; [|reflexivity]. exfalso.
    destruct (two_boats_one_host inst a Hn Hacc) as [[Hh Hg] | [Hh Hg]].
    - pose proof (two_boats_need_room inst a 0 1 Hn ltac:(lia) ltac:(lia)
                    ltac:(lia) Hacc Hh Hg). lia.
    - pose proof (two_boats_need_room inst a 1 0 Hn ltac:(lia) ltac:(lia)
                    ltac:(lia) Hacc Hh Hg). lia. }
  pose proof (solve_infeasible inst Hno) as Hs.
  split; [exact Hno|]. split; [exact Hs|]. apply run_unsat; [lia | exact Hno].
Qed.

Lemma two_boats_without_room_unsat_witness :
  n_boats inst2_tight = 2 /\
  cannot_accommodate inst2_tight 0 /\ cannot_accommodate inst2_tight 1 /\
  ((forall a, accepted inst2_tight a = false) /\
   solve inst2_tight = None /\ run inst2_tight = Unsat).
Proof.
  split; [reflexivity|].
  split; [unfold cannot_accommodate; cbn; lia|].
  split; [unfold cannot_accommodate; cbn; lia|].
  apply (two_boats_without_room_unsat inst2_tight);
    [reflexivity | unfold cannot_accommodate; cbn; lia
     | unfold cannot_accommodate; cbn; lia].
Defined.

(** Claim C9 as stated fails: with crews 5 and 5 and capacities 5 and 20, boat 0
    has no room for both crews, yet boat 1 hosts boat 0 and the instance is
    solved. *)
Lemma one_small_boat_counterexample :
  n_boats inst2 = 2 /\ cannot_accommodate inst2 0 /\
  accepted inst2 sched2 = true /\ run inst2 <> Unsat.
Proof.
  split; [reflexivity|].
  split; [unfold cannot_accommodate; cbn; lia|].
  split; [vm_compute; reflexivity|].
  unfold run. rewrite (build_model_two_boats inst2) by (cbn; lia).
  destruct (solve_feasible inst2) as (a & Ha);
    [exists sched2; vm_compute; reflexivity|].
  rewrite Ha. discriminate.
Qed.

(** ** Raising a capacity *)

Lemma nth_set_nth_le (l : list Z) (b : nat) (c : Z) (b' : nat) :
  (nth b l 0 <= c)%Z -> (nth b' l 0 <= nth b' (set_nth l b c) 0)%Z.
Proof.
  revert b b'. induction l as [|x l IH]; intros b b' H.
  - cbn. destruct b'; lia.
  - destruct b as [|b], b' as [|b']; cbn in *; try lia.
    now apply IH.
Qed.

Lemma with_capacity_accepted (inst : Instance) (b : nat) (c : Z)
  (a : Assignment) :
  (cap inst b <= c)%Z ->
  accepted inst a = true -> accepted (with_capacity inst b c) a = true.
Proof.
  intros Hc Hacc. pose proof Hacc as Hall.
  unfold accepted, satisfies, model in Hall |- *.
  rewrite forallb_app in Hall |- *. apply andb_true_iff in Hall.
  destruct Hall as [_ Hrest]. apply andb_true_iff. split; [|exact Hrest].
  apply forallb_forall. intros k Hk. unfold C1 in Hk.
  apply in_flat_map in Hk. destruct Hk as (t & Ht & Hk).
  apply in_flat_map in Hk. destruct Hk as (b' & Hb' & [<- | [<- | []]]).
  - apply in_range in Ht, Hb'. cbn in Ht, Hb'.
    pose proof (accepted_capacity inst a Hacc t b' Ht Hb') as H.
    unfold capacity_limit. apply Z.leb_le.
    change (guests_aboard (with_capacity inst b c) t b' a)
      with (guests_aboard inst t b' a).
    change (crew (with_capacity inst b c) b') with (crew inst b').
    pose proof (nth_set_nth_le (capacity inst) b c b' Hc) as Hm.
    unfold cap in *. cbn [capacity with_capacity]. lia.
  - apply in_range in Ht, Hb'. cbn in Ht, Hb'.
    unfold no_self_visit. apply Z.eqb_eq.
    now rewrite (accepted_no_self inst a Hacc t b' Ht Hb').
Qed.

(** Claim C10: raising the capacity of one boat, everything else unchanged, keeps
    every accepted valuation accepted, so the greatest number of guests the
    solver reaches does not decrease. *)
Theorem raising_capacity_keeps_optimum (inst : Instance) (b : nat) (c : Z) :
  (cap inst b <= c)%Z ->
  (forall a, accepted inst a = true ->
             accepted (with_capacity inst b c) a = true) /\
  (forall a, solve inst = Some a ->
     exists a', solve (with_capacity inst b c) = Some a' /\
                (guest_count inst a
                 <= guest_count (with_capacity inst b c) a')%Z).
Proof.
  intros Hc. split; [intros a; now apply with_capacity_accepted|].
  intros a Ha. apply solve_some in Ha. destruct Ha as [Hacc _].
  pose proof (with_capacity_accepted inst b c a Hc Hacc) as Hacc'.
  destruct (solve_feasible (with_capacity inst b c)) as (a' & Ha');
    [now exists a|].
  exists a'. split; [exact Ha'|].
  apply solve_some in Ha'. destruct Ha' as [_ Hmax].
  exact (Hmax a Hacc').
Qed.

Lemma raising_capacity_keeps_optimum_witness :
  (cap inst3 0 <= 25)%Z /\
  ((forall a, accepted inst3 a = true ->
              accepted (with_capacity inst3 0 25) a = true) /\
   (forall a, solve inst3 = Some a ->
      exists a', solve (with_capacity inst3 0 25) = Some a' /\
                 (guest_count inst3 a
                  <= guest_count (with_capacity inst3 0 25) a')%Z)).
Proof.
  split; [cbn; lia|].
  apply (raising_capacity_keeps_optimum inst3 0 25). cbn; lia.
Defined.

(** * Further properties of the model *)

(** ** Exchanging and bounding sums *)

Lemma sum_map_zero (A : Type) (l : list A) : sum (map (fun _ => 0%Z) l) = 0%Z.
Proof. induction l as [|x l IH]; [reflexivity|]. cbn [map sum fold_right]. exact IH. Qed.

Lemma sum_map_add (A : Type) (f g : A -> Z) (l : list A) :
  sum (map (fun x => f x + g x)%Z l) = (sum (map f l) + sum (map g l))%Z.
Proof.
  induction l as [|x l IH]; [reflexivity|].
  cbn [map sum fold_right]. fold (sum (map (fun x => f x + g x)%Z l)).
  fold (sum (map f l)). fold (sum (map g l)). lia.
Qed.

Lemma sum_swap (f : nat -> nat -> Z) (lt ln : list nat) :
  sum (map (fun t => sum (map (fun j => f t j) ln)) lt)
  = sum (map (fun j => sum (map (fun t => f t j) lt)) ln).
Proof.
  induction lt as [|t lt IH].
  - cbn [map sum fold_right]. symmetry. apply sum_map_zero.
  - cbn [map sum fold_right].
    fold (sum (map (fun t => sum (map (fun j => f t j) ln)) lt)).
    rewrite IH.
    rewrite <- (sum_map_add nat (fun j => f t j)
                  (fun j => sum (map (fun t => f t j) lt))).
    reflexivity.
Qed.

Lemma sum_map_le_length (f : nat -> Z) (l : list nat) :
  (forall x, In x l -> (f x <= 1)%Z) -> (sum (map f l) <= Z.of_nat (length l))%Z.
Proof.
  induction l as [|x l IH]; intros H; [cbn; lia|].
  cbn [map sum fold_right length]. fold (sum (map f l)).
  assert (f x <= 1)%Z by (apply H; now left).
  assert (sum (map f l) <= Z.of_nat (length l))%Z
    by (apply IH; intros y Hy; apply H; now right).
  lia.
Qed.

Lemma sum_map_mul_const (f : nat -> Z) (c : Z) (l : list nat) :
  sum (map (fun x => f x * c)%Z l) = (sum (map f l) * c)%Z.
Proof.
  induction l as [|x l IH]; [reflexivity|].
  cbn [map sum fold_right]. fold (sum (map (fun x => f x * c)%Z l)).
  fold (sum (map f l)). lia.
Qed.

(** ** Guests, hosts and periods *)

Section Counting.

Variable inst : Instance.
Variable a : Assignment.
Hypothesis Hacc : accepted inst a = true.

Lemma pair_visits_is_host_flag (g j : nat) :
  g < n_boats inst -> j < n_boats inst -> hosts a g = false ->
  pair_visits inst g j a = b2z (hosts a j).
Proof.
  intros Hg Hj Hguest. destruct (hosts a j) eqn:Hh.
  - apply (accepted_visits_once inst a Hacc g j Hg Hj); auto.
    intros ->. congruence.
  - pose proof (accepted_guest_unvisited inst a Hacc j Hj Hh) as H0.
    unfold pair_visits.
    rewrite (sum_map_ext_in (fun t => b2z (boats a t g j)) (fun _ => 0%Z)).
    + apply sum_map_zero.
    + intros t Ht.
      rewrite (double_sum_zero (fun t i => boats a t i j) _ _ H0 t g Ht);
        [reflexivity | now apply in_range].
Qed.

Lemma guest_visits_count (g : nat) :
  g < n_boats inst -> hosts a g = false ->
  visits_from inst g a = host_count inst a.
Proof.
  intros Hg Hguest. unfold visits_from.
  rewrite (sum_swap (fun t j => b2z (boats a t g j))).
  unfold host_count. apply sum_map_ext_in. intros j Hj. apply in_range in Hj.
  exact (pair_visits_is_host_flag g j Hg Hj Hguest).
Qed.

Lemma visits_from_le_periods (g : nat) :
  g < n_boats inst -> hosts a g = false ->
  (visits_from inst g a <= Z.of_nat (available_halfhours inst))%Z.
Proof.
  intros Hg Hguest. unfold visits_from.
  rewrite <- (length_range (available_halfhours inst)) at 2.
  apply sum_map_le_length. intros t Ht. apply in_range in Ht.
  exact (accepted_one_per_slot inst a Hacc t g Ht Hg Hguest).
Qed.

Lemma some_guest : exists g, g < n_boats inst /\ hosts a g = false.
Proof.
  pose proof (accepted_host_count inst a Hacc) as H. unfold host_count in H.
  destruct (sum_flags_short nat (hosts a) (range (n_boats inst)))
    as (g & Hg & Hh); [rewrite length_range; lia|].
  exists g. split; [now apply in_range | exact Hh].
Qed.

Lemma some_host : exists h, h < n_boats inst /\ hosts a h = true.
Proof.
  pose proof (accepted_host_count inst a Hacc) as H. unfold host_count in H.
  destruct (sum_flags_pos nat (hosts a) (range (n_boats inst)))
    as (h & Hh & Hv); [lia|].
  exists h. split; [now apply in_range | exact Hv].
Qed.

Lemma host_count_le_periods :
  (host_count inst a <= Z.of_nat (available_halfhours inst))%Z.
Proof.
  destruct some_guest as (g & Hg & Hguest).
  rewrite <- (guest_visits_count g Hg Hguest).
  now apply visits_from_le_periods.
Qed.

Lemma visits_from_by_role (i : nat) :
  i < n_boats inst ->
  visits_from inst i a = (b2z (negb (hosts a i)) * host_count inst a)%Z.
Proof.
  intros Hi. destruct (hosts a i) eqn:Hh; cbn [negb b2z].
  - rewrite (accepted_host_stays inst a Hacc i Hi Hh). lia.
  - rewrite (guest_visits_count i Hi Hh). lia.
Qed.

Lemma total_visits :
  sum (map (fun t => sum (map (fun i => slot_visits inst t i a)
                              (range (n_boats inst))))
           (range (available_halfhours inst)))
  = (objective inst a * host_count inst a)%Z.
Proof.
  rewrite (sum_swap (fun t i => slot_visits inst t i a)).
  change (sum (map (fun i => sum (map (fun t => slot_visits inst t i a)
                                      (range (available_halfhours inst))))
                   (range (n_boats inst))))
    with (sum (map (fun i => visits_from inst i a) (range (n_boats inst)))).
  rewrite (sum_map_ext_in (fun i => visits_from inst i a)
             (fun i => b2z (negb (hosts a i)) * host_count inst a)%Z).
  - unfold objective. apply sum_map_mul_const.
  - intros i Hi. apply visits_from_by_role. now apply in_range.
Qed.

End Counting.

(** Property X1: in an accepted valuation there are at most as many hosts as periods, so
    at least [n_boats - available_halfhours] boats are guests: a guest has to
    visit every host, in a different period each. *)
Theorem hosts_at_most_periods (inst : Instance) (a : Assignment) :
  accepted inst a = true ->
  (host_count inst a <= Z.of_nat (available_halfhours inst))%Z /\
  (Z.of_nat (n_boats inst) - Z.of_nat (available_halfhours inst)
   <= guest_count inst a)%Z.
Proof.
  intros Hacc. pose proof (host_count_le_periods inst a Hacc) as H.
  split; [exact H|]. unfold guest_count. rewrite objective_host_count. lia.
Qed.

Lemma hosts_at_most_periods_witness :
  accepted inst3 sched3 = true /\
  ((host_count inst3 sched3 <= Z.of_nat (available_halfhours inst3))%Z /\
   (Z.of_nat (n_boats inst3) - Z.of_nat (available_halfhours inst3)
    <= guest_count inst3 sched3)%Z).
Proof.
  split; [reflexivity|].
  apply (hosts_at_most_periods inst3 sched3). reflexivity.
Defined.

(** Property X2: in an accepted valuation the number of visits a boat makes over the whole
    schedule is the number of hosts if it is a guest and 0 if it is a host,
    and the number of visits it receives from a guest is 1 if it is a host
    and 0 otherwise. *)
Theorem visits_determined_by_roles
  (inst : Instance) (a : Assignment) (i j : nat) :
  accepted inst a = true -> i < n_boats inst -> j < n_boats inst ->
  visits_from inst i a = (if hosts a i then 0 else host_count inst a)%Z /\
  (hosts a i = false -> pair_visits inst i j a = b2z (hosts a j)).
Proof.
  intros Hacc Hi Hj. split.
  - rewrite (visits_from_by_role inst a Hacc i Hi).
    destruct (hosts a i); cbn [negb b2z]; lia.
  - intros Hg. exact (pair_visits_is_host_flag inst a Hacc i j Hi Hj Hg).
Qed.

Lemma visits_determined_by_roles_witness :
  accepted inst3 sched3 = true /\ 2 < n_boats inst3 /\ 1 < n_boats inst3 /\
  (visits_from inst3 2 sched3
   = (if hosts sched3 2 then 0 else host_count inst3 sched3)%Z /\
   (hosts sched3 2 = false ->
    pair_visits inst3 2 1 sched3 = b2z (hosts sched3 1))).
Proof.
  split; [reflexivity|]. split; [cbn; lia|]. split; [cbn; lia|].
  apply (visits_determined_by_roles inst3 sched3 2 1);
    [reflexivity | cbn; lia | cbn; lia].
Defined.

Lemma term_le_sum (f : nat -> Z) (l : list nat) (x : nat) :
  (forall y, In y l -> (0 <= f y)%Z) -> In x l -> (f x <= sum (map f l))%Z.
Proof.
  induction l as [|y l IH]; intros Hpos Hx; [contradiction|].
  cbn [map sum fold_right]. fold (sum (map f l)).
  assert (0 <= f y)%Z by (apply Hpos; now left).
  assert (0 <= sum (map f l))%Z.
  { apply sum_nonneg. intros z Hz. apply in_map_iff in Hz.
    destruct Hz as (w & <- & Hw). apply Hpos. now right. }
  destruct Hx as [-> | Hx]; [lia|].
  assert (f x <= sum (map f l))%Z
    by (apply IH; auto; intros z Hz; apply Hpos; now right).
  lia.
Qed.

(** Property X3: with non-negative crews, an accepted valuation needs every host to have
    room for its own crew together with the crew of any one guest. *)
Theorem host_has_room_for_each_guest
  (inst : Instance) (a : Assignment) (h g : nat) :
  (forall i, i < n_boats inst -> (0 <= crew inst i)%Z) ->
  accepted inst a = true -> h < n_boats inst -> g < n_boats inst ->
  hosts a h = true -> hosts a g = false ->
  (crew inst h + crew inst g <= cap inst h)%Z.
Proof.
  intros Hcrew Hacc Hh Hg Hhost Hguest.
  assert (Hne : g <> h) by (intros ->; congruence).
  pose proof (accepted_visits_once inst a Hacc g h Hg Hh Hne Hguest Hhost)
    as Hone.
  destruct (sum_flags_pos nat (fun t => boats a t g h)
              (range (available_halfhours inst))) as (t & Ht & Hv);
    [unfold pair_visits in Hone; lia|].
  apply in_range in Ht.
  pose proof (accepted_capacity inst a Hacc t h Ht Hh) as Hcap.
  assert (Hterm : (b2z (boats a t g h) * crew inst g
                   <= guests_aboard inst t h a)%Z).
  { unfold guests_aboard.
    apply (term_le_sum (fun i => b2z (boats a t i h) * crew inst i)%Z).
    - intros i Hi. apply in_range in Hi.
      pose proof (b2z_range (boats a t i h)). specialize (Hcrew i Hi). nia.
    - now apply in_range. }
  rewrite Hv in Hterm. cbn [b2z] in Hterm. lia.
Qed.

Lemma inst3_crews_nonneg : forall i, i < n_boats inst3 -> (0 <= crew inst3 i)%Z.
Proof. intros i Hi. cbn in Hi. destruct i as [|[|[|i]]]; cbn; lia. Qed.

Lemma host_has_room_for_each_guest_witness :
  (forall i, i < n_boats inst3 -> (0 <= crew inst3 i)%Z) /\
  accepted inst3 sched3 = true /\
  (crew inst3 0 + crew inst3 1 <= cap inst3 0)%Z.
Proof.
  split; [exact inst3_crews_nonneg|]. split; [reflexivity|].
  apply (host_has_room_for_each_guest inst3 sched3 0 1);
    [exact inst3_crews_nonneg | reflexivity | cbn; lia | cbn; lia
     | reflexivity | reflexivity].
Defined.

(** ** The printed schedule *)

Lemma flag_test (b : bool) : (b2z b =? 1)%Z = b.
Proof. destruct b; reflexivity. Qed.

Lemma in_report_period (inst : Instance) (a : Assignment) (t g h : nat) :
  In (g, h) (report_period inst a t) <->
  exists i j, i < n_boats inst /\ j < n_boats inst /\
              boats a t i j = true /\ g = i + 1 /\ h = j + 1.
Proof.
  unfold report_period. rewrite in_flat_map. split.
  - intros (i & Hi & H). apply in_flat_map in H. destruct H as (j & Hj & H).
    rewrite flag_test in H. destruct (boats a t i j) eqn:Hv; [|contradiction].
    destruct H as [E | []]. inversion E; subst.
    exists i, j. rewrite in_range in Hi, Hj. auto.
  - intros (i & j & Hi & Hj & Hv & -> & ->).
    exists i. split; [now apply in_range|].
    apply in_flat_map. exists j. split; [now apply in_range|].
    rewrite flag_test, Hv. now left.
Qed.

Lemma hosts_values_nth (inst : Instance) (a : Assignment) (b : nat) (d : bool) :
  b < n_boats inst -> nth b (hosts_values inst a) d = hosts a b.
Proof.
  intros Hb. unfold hosts_values, range.
  rewrite (nth_indep _ d (hosts a 0)) by (rewrite length_map, length_seq; lia).
  rewrite map_nth, seq_nth by lia. reflexivity.
Qed.

Lemma visit_roles (inst : Instance) (a : Assignment) (t i j : nat) :
  accepted inst a = true ->
  t < available_halfhours inst -> i < n_boats inst -> j < n_boats inst ->
  boats a t i j = true -> hosts a i = false /\ hosts a j = true.
Proof.
  intros Hacc Ht Hi Hj Hv. split.
  - destruct (hosts a i) eqn:Hh; [|reflexivity].
    pose proof (accepted_host_stays inst a Hacc i Hi Hh) as H.
    rewrite (double_sum_zero (fun t j => boats a t i j) _ _ H t j) in Hv;
      [discriminate | now apply in_range | now apply in_range].
  - destruct (hosts a j) eqn:Hh; [reflexivity|].
    pose proof (accepted_guest_unvisited inst a Hacc j Hj Hh) as H.
    rewrite (double_sum_zero (fun t i => boats a t i j) _ _ H t i) in Hv;
      [discriminate | now apply in_range | now apply in_range].
Qed.

(** Property X6: the report of an accepted valuation is labelled correctly: in a printed
    line "Boat g (guest) visits Boat h (host)" both numbers name boats, boat
    [g] is shown as a guest and boat [h] as a host in [hosts_values], and no
    second line of the same period has [g] as its guest. *)
Theorem printed_visit_is_guest_to_host
  (inst : Instance) (a : Assignment) (t g h : nat) :
  accepted inst a = true -> t < available_halfhours inst ->
  In (g, h) (report_period inst a t) ->
  (1 <= g <= n_boats inst /\ 1 <= h <= n_boats inst /\ g <> h) /\
  nth (g - 1) (hosts_values inst a) true = false /\
  nth (h - 1) (hosts_values inst a) false = true /\
  (forall h', In (g, h') (report_period inst a t) -> h' = h).
Proof.
  intros Hacc Ht Hin. apply in_report_period in Hin.
  destruct Hin as (i & j & Hi & Hj & Hv & -> & ->).
  destruct (visit_roles inst a t i j Hacc Ht Hi Hj Hv) as [Hg Hh].
  replace (i + 1 - 1) with i by lia. replace (j + 1 - 1) with j by lia.
  rewrite !hosts_values_nth by assumption.
  split; [|split; [exact Hg | split; [exact Hh|]]].
  - assert (i <> j) by (intros ->; congruence). lia.
  - intros h' Hin'. apply in_report_period in Hin'.
    destruct Hin' as (i' & j' & Hi' & Hj' & Hv' & E & ->).
    assert (i' = i) by lia. subst i'.
    pose proof (accepted_one_per_slot inst a Hacc t i Ht Hi Hg) as Hone.
    unfold slot_visits in Hone.
    rewrite (sum_flags_at_most_one nat (fun j => boats a t i j)
               (range (n_boats inst)) (range_NoDup _) Hone j' j); auto;
      now apply in_range.
Qed.

Lemma printed_visit_is_guest_to_host_witness :
  accepted inst3 sched3 = true /\ 0 < available_halfhours inst3 /\
  In (2, 1) (report_period inst3 sched3 0) /\
  ((1 <= 2 <= n_boats inst3 /\ 1 <= 1 <= n_boats inst3 /\ 2 <> 1) /\
   nth (2 - 1) (hosts_values inst3 sched3) true = false /\
   nth (1 - 1) (hosts_values inst3 sched3) false = true /\
   (forall h', In (2, h') (report_period inst3 sched3 0) -> h' = 1)).
Proof.
  split; [reflexivity|]. split; [cbn; lia|]. split; [cbn; auto|].
  apply (printed_visit_is_guest_to_host inst3 sched3 0 2 1);
    [reflexivity | cbn; lia | cbn; auto].
Defined.

Lemma length_flagged (f : nat -> nat -> bool) (li lj : list nat) :
  Z.of_nat (length (flat_map (fun i =>
              flat_map (fun j => if (b2z (f i j) =? 1)%Z
                                 then [(i + 1, j + 1)] else []) lj) li))
  = sum (map (fun i => sum (map (fun j => b2z (f i j)) lj)) li).
Proof.
  induction li as [|i li IH]; [reflexivity|].
  cbn [flat_map map sum fold_right].
  rewrite length_app, Nat2Z.inj_add, IH. f_equal. clear IH.
  induction lj as [|j lj IH]; [reflexivity|].
  cbn [flat_map map sum fold_right].
  rewrite length_app, Nat2Z.inj_add, IH, flag_test.
  destruct (f i j); reflexivity.
Qed.

Lemma length_report_period (inst : Instance) (a : Assignment) (t : nat) :
  Z.of_nat (length (report_period inst a t))
  = sum (map (fun i => slot_visits inst t i a) (range (n_boats inst))).
Proof.
  unfold report_period.
  exact (length_flagged (fun i j => boats a t i j) _ _).
Qed.

Lemma length_report (inst : Instance) (a : Assignment) :
  Z.of_nat (length (concat (map snd (report inst a))))
  = sum (map (fun t => sum (map (fun i => slot_visits inst t i a)
                                (range (n_boats inst))))
             (range (available_halfhours inst))).
Proof.
  unfold report.
  induction (range (available_halfhours inst)) as [|t l IH]; [reflexivity|].
  cbn [map concat snd sum fold_right].
  rewrite length_app, Nat2Z.inj_add, IH, length_report_period. reflexivity.
Qed.

(** Property X7: the report of an accepted valuation has one line for every pair of a
    guest and a host: the number of printed visits is the number of guests
    times the number of hosts. *)
Theorem report_has_guests_times_hosts_lines
  (inst : Instance) (a : Assignment) :
  accepted inst a = true ->
  Z.of_nat (length (concat (map snd (report inst a))))
  = (guest_count inst a * host_count inst a)%Z.
Proof.
  intros Hacc. rewrite length_report. exact (total_visits inst a Hacc).
Qed.

Lemma report_has_guests_times_hosts_lines_witness :
  accepted inst3 sched3 = true /\
  Z.of_nat (length (concat (map snd (report inst3 sched3))))
  = (guest_count inst3 sched3 * host_count inst3 sched3)%Z.
Proof.
  split; [reflexivity|].
  apply (report_has_guests_times_hosts_lines inst3 sched3). reflexivity.
Defined.

(** ** Generated instances *)

Lemma add_arrays_nth (xs ys : list Z) (b : nat) :
  length xs = length ys ->
  nth b (add_arrays xs ys) 0%Z = (nth b xs 0 + nth b ys 0)%Z.
Proof.
  intros Hlen. unfold add_arrays.
  change 0%Z with ((fun p : Z * Z => (fst p + snd p)%Z) (0%Z, 0%Z)) at 1.
  rewrite map_nth, combine_nth by exact Hlen. reflexivity.
Qed.

Lemma randint_result_nth (low high : Z) (n : nat) (draw : list Z) (b : nat) :
  randint_result low high n draw -> b < n ->
  (low <= nth b draw 0 < high)%Z.
Proof.
  intros [Hlen Hall] Hb. rewrite Forall_forall in Hall.
  apply Hall. apply nth_In. lia.
Qed.

(** Property X5: whatever the generator draws, an instance made by lines 29-32 has every
    crew between 4 and [max_crew_size - 1] and every capacity at least the
    boat's own crew, less than [capacity_max_multiplier * max_crew_size]
    above it; with two boats and one period or more it is not ill-formed. *)
Theorem generated_instance_fits_own_crews
  (n T : nat) (max_crew_size capacity_max_multiplier : Z)
  (crew_draw capacity_draw : list Z) :
  randint_result 4 max_crew_size n crew_draw ->
  randint_result 0 (capacity_max_multiplier * max_crew_size) n capacity_draw ->
  (forall b, b < n ->
     (4 <= crew (generate n T crew_draw capacity_draw) b < max_crew_size)%Z /\
     (crew (generate n T crew_draw capacity_draw) b
      <= cap (generate n T crew_draw capacity_draw) b
      < crew (generate n T crew_draw capacity_draw) b
        + capacity_max_multiplier * max_crew_size)%Z) /\
  (2 <= n -> 1 <= T -> ~ ill_formed (generate n T crew_draw capacity_draw)).
Proof.
  intros Hcrew Hcap.
  assert (Hb : forall b, b < n ->
     (4 <= crew (generate n T crew_draw capacity_draw) b < max_crew_size)%Z /\
     (crew (generate n T crew_draw capacity_draw) b
      <= cap (generate n T crew_draw capacity_draw) b
      < crew (generate n T crew_draw capacity_draw) b
        + capacity_max_multiplier * max_crew_size)%Z).
  { intros b Hb. unfold crew, cap. cbn [generate crew_size capacity].
    rewrite add_arrays_nth
      by (destruct Hcrew as [-> _]; destruct Hcap as [-> _]; reflexivity).
    pose proof (randint_result_nth _ _ _ _ b Hcrew Hb).
    pose proof (randint_result_nth _ _ _ _ b Hcap Hb). lia. }
  split; [exact Hb|].
  intros Hn HT [H | [H | (_ & b & Hlt & Hsmall)]].
  - cbn in H. lia.
  - cbn in H. lia.
  - cbn [generate n_boats] in Hlt. specialize (Hb b Hlt). lia.
Qed.

Lemma generated_instance_fits_own_crews_witness :
  randint_result 4 20 2 [5; 7]%Z /\
  randint_result 0 (5 * 20) 2 [0; 13]%Z /\
  ((forall b, b < 2 ->
      (4 <= crew (generate 2 1 [5; 7]%Z [0; 13]%Z) b < 20)%Z /\
      (crew (generate 2 1 [5; 7]%Z [0; 13]%Z) b
       <= cap (generate 2 1 [5; 7]%Z [0; 13]%Z) b
       < crew (generate 2 1 [5; 7]%Z [0; 13]%Z) b + 5 * 20)%Z) /\
   (2 <= 2 -> 1 <= 1 -> ~ ill_formed (generate 2 1 [5; 7]%Z [0; 13]%Z))).
Proof.
  assert (H1 : randint_result 4 20 2 [5; 7]%Z).
  { split; [reflexivity|]. repeat constructor; lia. }
  assert (H2 : randint_result 0 (5 * 20) 2 [0; 13]%Z).
  { split; [reflexivity|]. repeat constructor; lia. }
  split; [exact H1|]. split; [exact H2|].
  apply (generated_instance_fits_own_crews 2 1 20 5 [5; 7]%Z [0; 13]%Z H1 H2).
Defined.

(** ** The visit graphs *)

Lemma has_node_true (G : DiGraph) (v : nat) :
  has_node G v = true <-> In v (map fst (nodes G)).
Proof.
  unfold has_node. rewrite existsb_exists, in_map_iff. split.
  - intros (p & Hp & E). apply Nat.eqb_eq in E. exists p. auto.
  - intros (p & E & Hp). exists p. split; [exact Hp | now apply Nat.eqb_eq].
Qed.

Lemma has_node_false (G : DiGraph) (v : nat) :
  has_node G v = false <-> ~ In v (map fst (nodes G)).
Proof.
  rewrite <- has_node_true. destruct (has_node G v); split; congruence.
Qed.

Lemma fold_add_nodes (mk : nat -> NodeData) (l : list nat) :
  NoDup l ->
  forall acc es,
    (forall b, In b l -> ~ In (b + 1) (map fst acc)) ->
    fold_left (fun G b => add_node G (b + 1) (mk b)) l
              {| nodes := acc; edges := es |}
    = {| nodes := acc ++ map (fun b => (b + 1, Some (mk b))) l; edges := es |}.
Proof.
  induction 1 as [|b l Hb Hnd IH]; intros acc es Hfresh.
  - cbn. now rewrite app_nil_r.
  - cbn [fold_left map]. unfold add_node at 2.
    assert (Hno : has_node {| nodes := acc; edges := es |} (b + 1) = false)
      by (apply has_node_false; cbn [nodes]; apply Hfresh; now left).
    rewrite Hno. cbn [nodes edges]. rewrite IH.
    + now rewrite <- app_assoc.
    + intros b' Hb'. rewrite map_app, in_app_iff. cbn [map fst In].
      intros [Hin | [E | []]].
      * apply (Hfresh b'); [now right | exact Hin].
      * assert (b' = b) by lia. subst b'. contradiction.
Qed.

Lemma fold_left_map_pairs (A : Type) (f : A -> nat * nat -> A)
  (i : nat) (lj : list nat) (G : A) :
  fold_left f (map (fun j => (i, j)) lj) G
  = fold_left (fun G j => f G (i, j)) lj G.
Proof.
  revert G. induction lj as [|j lj IH]; intros G; [reflexivity|].
  cbn [map fold_left]. apply IH.
Qed.

Lemma fold_left_pairs (A : Type) (f : A -> nat * nat -> A)
  (li lj : list nat) (G : A) :
  fold_left (fun G i => fold_left (fun G j => f G (i, j)) lj G) li G
  = fold_left f (list_prod li lj) G.
Proof.
  revert G. induction li as [|i li IH]; intros G; [reflexivity|].
  cbn [fold_left list_prod]. rewrite fold_left_app, fold_left_map_pairs.
  apply IH.
Qed.

Lemma NoDup_pairs (li lj : list nat) :
  NoDup li -> NoDup lj -> NoDup (list_prod li lj).
Proof.
  intros Hi Hj. induction Hi as [|i li Hin Hnd IH]; [constructor|].
  cbn [list_prod]. apply NoDup_app.
  - apply NoDup_map_NoDup_ForallPairs; [|exact Hj].
    intros x y _ _ E. now inversion E.
  - exact IH.
  - intros [x y] Hxy Hprod. apply in_map_iff in Hxy.
    destruct Hxy as (j & E & _). inversion E; subst.
    apply in_prod_iff in Hprod. destruct Hprod as [Hx _]. contradiction.
Qed.

Lemma flagged_as_filter (f : nat -> nat -> bool) (li lj : list nat) :
  flat_map (fun i =>
    flat_map (fun j => if (b2z (f i j) =? 1)%Z then [(i + 1, j + 1)] else [])
             lj) li
  = map (fun p => (fst p + 1, snd p + 1))
        (filter (fun p => f (fst p) (snd p)) (list_prod li lj)).
Proof.
  induction li as [|i li IH]; [reflexivity|].
  cbn [flat_map list_prod]. rewrite filter_app, map_app, IH. f_equal.
  clear IH. induction lj as [|j lj IH]; [reflexivity|].
  cbn [flat_map map filter fst snd]. rewrite flag_test, IH.
  destruct (f i j); reflexivity.
Qed.

Section GraphEdges.

Variable flag : nat -> nat -> bool.
Variable time : nat.

Lemma add_edge_fresh (G : DiGraph) (u v : nat) :
  has_node G u = true -> has_node G v = true -> has_edge G u v = false ->
  add_edge G u v time
  = {| nodes := nodes G; edges := edges G ++ [(u, v, time)] |}.
Proof.
  intros Hu Hv He. unfold add_edge, ensure_node. rewrite Hu, Hv, He.
  reflexivity.
Qed.

Lemma fold_edge_steps (ps : list (nat * nat)) :
  NoDup ps ->
  forall G,
    (forall p, In p ps -> has_node G (fst p + 1) = true /\
                          has_node G (snd p + 1) = true) ->
    (forall p, In p ps -> has_edge G (fst p + 1) (snd p + 1) = false) ->
    fold_left (edge_step flag time) ps G
    = {| nodes := nodes G;
         edges := edges G
                  ++ map (fun p => (fst p + 1, snd p + 1, time))
                         (filter (fun p => flag (fst p) (snd p)) ps) |}.
Proof.
  induction 1 as [|p ps Hp Hnd IH]; intros G Hnodes Hedges.
  - cbn. rewrite app_nil_r. now destruct G.
  - cbn [fold_left filter]. unfold edge_step at 2. rewrite flag_test.
    destruct (flag (fst p) (snd p)) eqn:Hf.
    + destruct (Hnodes p (or_introl eq_refl)) as [Hu Hv].
      rewrite (add_edge_fresh G _ _ Hu Hv (Hedges p (or_introl eq_refl))).
      rewrite IH.
      * cbn [nodes edges map]. now rewrite <- app_assoc.
      * intros q Hq. unfold has_node in *. cbn [nodes].
        apply Hnodes. now right.
      * intros q Hq. unfold has_edge. cbn [edges].
        rewrite existsb_app. apply orb_false_iff. split.
        -- apply (Hedges q). now right.
        -- cbn [existsb fst snd]. rewrite orb_false_r.
           apply andb_false_iff.
           destruct (Nat.eqb (fst p + 1) (fst q + 1)) eqn:E1; [|now left].
           destruct (Nat.eqb (snd p + 1) (snd q + 1)) eqn:E2; [|now right].
           exfalso. apply Nat.eqb_eq in E1, E2. apply Hp.
           destruct p as [p1 p2], q as [q1 q2]. cbn [fst snd] in E1, E2.
           replace p1 with q1 by lia. replace p2 with q2 by lia. exact Hq.
    + apply IH.
      * intros q Hq. apply Hnodes. now right.
      * intros q Hq. apply Hedges. now right.
Qed.

End GraphEdges.

Lemma build_graph_shape (inst : Instance) (a : Assignment) (t : nat) :
  build_graph inst a t
  = {| nodes := map (fun b => (b + 1, Some (boat_data inst a b)))
                    (range (n_boats inst));
       edges := map (fun p => (fst p, snd p, t + 1))
                    (report_period inst a t) |}.
Proof.
  unfold build_graph, empty_graph. cbv zeta.
  rewrite (fold_add_nodes (boat_data inst a) (range (n_boats inst))
             (range_NoDup _) [] []) by (intros b _ []).
  cbn [app].
  rewrite (fold_left_pairs DiGraph (edge_step (fun i j => boats a t i j) (t + 1))).
  rewrite fold_edge_steps.
  - cbn [nodes edges app]. f_equal. unfold report_period.
    rewrite (flagged_as_filter (fun i j => boats a t i j)), map_map.
    reflexivity.
  - apply NoDup_pairs; apply range_NoDup.
  - intros [i j] Hp. apply in_prod_iff in Hp. destruct Hp as [Hi Hj].
    cbn [fst snd]. split; apply has_node_true; cbn [nodes];
      rewrite map_map; cbn [fst]; apply in_map_iff; eauto.
  - intros p _. reflexivity.
Qed.

Lemma find_boat_node (mk : nat -> NodeData) (l : list nat) (b : nat) :
  In b l ->
  find (fun p => Nat.eqb (fst p) (b + 1))
       (map (fun b => (b + 1, Some (mk b))) l)
  = Some (b + 1, Some (mk b)).
Proof.
  induction l as [|x l IH]; intros Hb; [contradiction|].
  cbn [map find fst]. destruct (Nat.eqb (x + 1) (b + 1)) eqn:E.
  - apply Nat.eqb_eq in E. assert (x = b) by lia. now subst.
  - destruct Hb as [-> | Hb]; [|now apply IH].
    rewrite Nat.eqb_refl in E. discriminate.
Qed.

Lemma build_graph_node_data (inst : Instance) (a : Assignment) (t b : nat) :
  b < n_boats inst ->
  node_data (build_graph inst a t) (b + 1) = Some (boat_data inst a b).
Proof.
  intros Hb. rewrite build_graph_shape. unfold node_data. cbn [nodes].
  rewrite find_boat_node by now apply in_range. reflexivity.
Qed.

(** Property X8: the graph of a period has the boats 1 to [n_boats] as its nodes, in this
    order and once each, coloured red for hosts and blue for guests and
    carrying the boat's crew size and capacity; its edges, in order, are the
    visits printed for the period, each with the period's number as [time].
    No edge creates a node and no edge is added twice. *)
Theorem graph_matches_report (inst : Instance) (a : Assignment) (t : nat) :
  map fst (nodes (build_graph inst a t))
  = map (fun b => b + 1) (range (n_boats inst)) /\
  (forall b, b < n_boats inst ->
     node_data (build_graph inst a t) (b + 1)
     = Some {| color := if hosts a b then Red else Blue;
               node_crew_size := crew inst b;
               node_capacity := cap inst b |}) /\
  edges (build_graph inst a t)
  = map (fun p => (fst p, snd p, t + 1)) (report_period inst a t) /\
  length (graphs inst a) = available_halfhours inst.
Proof.
  split; [|split; [|split]].
  - rewrite build_graph_shape. cbn [nodes]. rewrite map_map. reflexivity.
  - intros b Hb. exact (build_graph_node_data inst a t b Hb).
  - rewrite build_graph_shape. reflexivity.
  - unfold graphs. rewrite length_map. apply length_range.
Qed.

(** Property X9: every edge of the graph of an accepted valuation leaves a blue node and
    enters a red one. *)
Theorem graph_edges_go_from_blue_to_red
  (inst : Instance) (a : Assignment) (t u v time : nat) :
  accepted inst a = true -> t < available_halfhours inst ->
  In (u, v, time) (edges (build_graph inst a t)) ->
  exists du dv,
    node_data (build_graph inst a t) u = Some du /\ color du = Blue /\
    node_data (build_graph inst a t) v = Some dv /\ color dv = Red /\
    time = t + 1.
Proof.
  intros Hacc Ht Hin. rewrite build_graph_shape in Hin. cbn [edges] in Hin.
  apply in_map_iff in Hin. destruct Hin as ([g h] & E & Hin).
  cbn [fst snd] in E. inversion E; subst; clear E.
  apply in_report_period in Hin.
  destruct Hin as (i & j & Hi & Hj & Hv & -> & ->).
  destruct (visit_roles inst a t i j Hacc Ht Hi Hj Hv) as [Hg Hh].
  exists (boat_data inst a i), (boat_data inst a j).
  rewrite !build_graph_node_data by assumption.
  unfold boat_data. cbn [color]. rewrite Hg, Hh. auto.
Qed.

Lemma graph_edges_go_from_blue_to_red_witness :
  accepted inst3 sched3 = true /\ 0 < available_halfhours inst3 /\
  In (3, 1, 1) (edges (build_graph inst3 sched3 0)) /\
  exists du dv,
    node_data (build_graph inst3 sched3 0) 3 = Some du /\ color du = Blue /\
    node_data (build_graph inst3 sched3 0) 1 = Some dv /\ color dv = Red /\
    1 = 0 + 1.
Proof.
  split; [reflexivity|]. split; [cbn; lia|]. split; [cbn; auto|].
  apply (graph_edges_go_from_blue_to_red inst3 sched3 0 3 1 1);
    [reflexivity | cbn; lia | cbn; auto].
Defined.

(** The predecessors of a boat's node are the boats visiting it. *)
Lemma predecessors_row (f : nat -> nat -> bool) (i b time : nat)
  (lj : list nat) :
  map (fun e : nat * nat * nat => fst (fst e))
      (filter (fun e : nat * nat * nat => Nat.eqb (snd (fst e)) (b + 1))
         (map (fun p : nat * nat => (fst p, snd p, time))
            (flat_map (fun j => if (b2z (f i j) =? 1)%Z
                                then [(i + 1, j + 1)] else []) lj)))
  = flat_map (fun j => if f i j && Nat.eqb j b then [i + 1] else []) lj.
Proof.
  induction lj as [|j lj IH]; [reflexivity|].
  cbn [flat_map]. rewrite map_app, filter_app, map_app, IH, flag_test.
  f_equal. destruct (f i j); [|reflexivity].
  cbn [map filter fst snd andb].
  destruct (Nat.eqb j b) eqn:E.
  - apply Nat.eqb_eq in E. subst. now rewrite Nat.eqb_refl.
  - apply Nat.eqb_neq in E.
    assert (Hne : Nat.eqb (j + 1) (b + 1) = false) by (apply Nat.eqb_neq; lia).
    now rewrite Hne.
Qed.

Lemma row_without (f : nat -> nat -> bool) (i b : nat) (lj : list nat) :
  ~ In b lj ->
  flat_map (fun j => if f i j && Nat.eqb j b then [i + 1] else []) lj = [].
Proof.
  induction lj as [|j lj IH]; intros Hb; [reflexivity|].
  cbn [flat_map]. rewrite IH by (intros H; apply Hb; now right).
  assert (E : Nat.eqb j b = false)
    by (apply Nat.eqb_neq; intros ->; apply Hb; now left).
  rewrite E, andb_false_r. reflexivity.
Qed.

Lemma row_collapse (f : nat -> nat -> bool) (i b : nat) (lj : list nat) :
  NoDup lj -> In b lj ->
  flat_map (fun j => if f i j && Nat.eqb j b then [i + 1] else []) lj
  = if f i b then [i + 1] else [].
Proof.
  induction 1 as [|j lj Hj Hnd IH]; intros Hb; [contradiction|].
  cbn [flat_map]. destruct Hb as [-> | Hb].
  - rewrite row_without by exact Hj.
    rewrite Nat.eqb_refl, andb_true_r, app_nil_r. reflexivity.
  - rewrite IH by exact Hb.
    assert (E : Nat.eqb j b = false)
      by (apply Nat.eqb_neq; intros ->; contradiction).
    rewrite E, andb_false_r. reflexivity.
Qed.

Lemma predecessors_rows (f : nat -> nat -> bool) (b time : nat)
  (li lj : list nat) :
  NoDup lj -> In b lj ->
  map (fun e : nat * nat * nat => fst (fst e))
      (filter (fun e : nat * nat * nat => Nat.eqb (snd (fst e)) (b + 1))
         (map (fun p : nat * nat => (fst p, snd p, time))
            (flat_map (fun i =>
               flat_map (fun j => if (b2z (f i j) =? 1)%Z
                                  then [(i + 1, j + 1)] else []) lj) li)))
  = flat_map (fun i => if f i b then [i + 1] else []) li.
Proof.
  intros Hnd Hb. induction li as [|i li IH]; [reflexivity|].
  cbn [flat_map]. rewrite map_app, filter_app, map_app, IH. f_equal.
  rewrite predecessors_row. now apply row_collapse.
Qed.

Lemma build_graph_predecessors (inst : Instance) (a : Assignment) (t b : nat) :
  b < n_boats inst ->
  predecessors (build_graph inst a t) (b + 1)
  = flat_map (fun i => if boats a t i b then [i + 1] else [])
             (range (n_boats inst)).
Proof.
  intros Hb. rewrite build_graph_shape. unfold predecessors, report_period.
  cbn [edges].
  apply (predecessors_rows (fun i j => boats a t i j));
    [apply range_NoDup | now apply in_range].
Qed.

Lemma crew_sum_visitors (G : DiGraph) (c : nat -> Z) (f : nat -> bool)
  (li : list nat) :
  (forall i, In i li -> exists d, node_data G (i + 1) = Some d /\
                                  node_crew_size d = c i) ->
  crew_sum G (flat_map (fun i => if f i then [i + 1] else []) li)
  = Some (sum (map (fun i => b2z (f i) * c i)%Z li)).
Proof.
  induction li as [|i li IH]; intros Hd; [reflexivity|].
  cbn [flat_map map sum fold_right].
  fold (sum (map (fun i => b2z (f i) * c i)%Z li)).
  assert (IH' := IH (fun j Hj => Hd j (or_intror Hj))).
  destruct (f i).
  - cbn [app crew_sum]. destruct (Hd i (or_introl eq_refl)) as (d & -> & <-).
    rewrite IH'. cbn [b2z]. f_equal; lia.
  - cbn [app b2z]. rewrite IH'. f_equal; lia.
Qed.

(** Property X10: the occupancy shown for a boat's node is its crew plus the crews of the
    boats visiting it in that period, the quantity bounded by the capacity
    constraint; for an accepted valuation it is at most the capacity shown
    beside it. *)
Theorem displayed_occupancy_within_capacity
  (inst : Instance) (a : Assignment) (t b : nat) :
  b < n_boats inst ->
  total_visitors (build_graph inst a t) (b + 1)
  = Some (crew inst b + guests_aboard inst t b a)%Z /\
  (accepted inst a = true -> t < available_halfhours inst ->
   exists v d, total_visitors (build_graph inst a t) (b + 1) = Some v /\
               node_data (build_graph inst a t) (b + 1) = Some d /\
               (v <= node_capacity d)%Z).
Proof.
  intros Hb.
  assert (Htot : total_visitors (build_graph inst a t) (b + 1)
                 = Some (crew inst b + guests_aboard inst t b a)%Z).
  { unfold total_visitors.
    rewrite build_graph_node_data, build_graph_predecessors by exact Hb.
    rewrite (crew_sum_visitors _ (crew inst) (fun i => boats a t i b)).
    - reflexivity.
    - intros i Hi. apply in_range in Hi. exists (boat_data inst a i).
      split; [now apply build_graph_node_data | reflexivity]. }
  split; [exact Htot|]. intros Hacc Ht.
  exists (crew inst b + guests_aboard inst t b a)%Z, (boat_data inst a b).
  split; [exact Htot|]. split; [now apply build_graph_node_data|].
  pose proof (accepted_capacity inst a Hacc t b Ht Hb). cbn [boat_data node_capacity].
  lia.
Qed.

Lemma displayed_occupancy_within_capacity_witness :
  0 < n_boats inst3 /\
  (total_visitors (build_graph inst3 sched3 0) (0 + 1)
   = Some (crew inst3 0 + guests_aboard inst3 0 0 sched3)%Z /\
   (accepted inst3 sched3 = true -> 0 < available_halfhours inst3 ->
    exists v d, total_visitors (build_graph inst3 sched3 0) (0 + 1) = Some v /\
                node_data (build_graph inst3 sched3 0) (0 + 1) = Some d /\
                (v <= node_capacity d)%Z)).
Proof.
  split; [cbn; lia|].
  apply (displayed_occupancy_within_capacity inst3 sched3 0 0). cbn; lia.
Defined.

(** ** How many constraints are posted *)

Lemma length_skip_absent (B : Type) (g : nat -> B) (i : nat) (l : list nat) :
  ~ In i l ->
  length (flat_map (fun j => if Nat.eqb i j then [] else [g j]) l) = length l.
Proof.
  induction l as [|j l IH]; intros Hi; [reflexivity|].
  cbn [flat_map length]. rewrite length_app, IH by (intros H; apply Hi; now right).
  assert (E : Nat.eqb i j = false)
    by (apply Nat.eqb_neq; intros ->; apply Hi; now left).
  rewrite E. reflexivity.
Qed.

Lemma length_skip_present (B : Type) (g : nat -> B) (i : nat) (l : list nat) :
  NoDup l -> In i l ->
  length (flat_map (fun j => if Nat.eqb i j then [] else [g j]) l)
  = length l - 1.
Proof.
  induction 1 as [|j l Hj Hnd IH]; intros Hi; [contradiction|].
  cbn [flat_map length]. rewrite length_app. destruct Hi as [-> | Hi].
  - rewrite Nat.eqb_refl, length_skip_absent by exact Hj. cbn. lia.
  - assert (E : Nat.eqb i j = false)
      by (apply Nat.eqb_neq; intros ->; contradiction).
    rewrite E, IH by exact Hi. cbn [length].
    destruct l; [contradiction | cbn; lia].
Qed.

Lemma length_triangle (B : Type) (g : nat -> nat -> B) (len start : nat) :
  2 * length (flat_map (fun i => map (g i) (range_from (i + 1) (start + len)))
                       (seq start len))
  = len * (len - 1).
Proof.
  revert start. induction len as [|len IH]; intros start; [reflexivity|].
  cbn [seq flat_map]. rewrite length_app, length_map.
  unfold range_from at 1. rewrite length_seq.
  replace (start + S len) with (S start + len) by lia.
  specialize (IH (S start)). nia.
Qed.

(** Property X4: for an instance with [n >= 2] boats and [T] periods the
    script posts the whole model, which consists of
    [3*T*n + 4*n + n*(n-1) + n*(n-1)/2 + 2] constraints: none is posted for
    a boat visiting itself exactly once, and one meeting constraint is posted
    for each unordered pair of boats. *)
Theorem number_of_posted_constraints (inst : Instance) :
  2 <= n_boats inst ->
  build_model inst = Built (model inst) /\
  length (model inst)
  = 3 * available_halfhours inst * n_boats inst + 4 * n_boats inst
    + n_boats inst * (n_boats inst - 1)
    + n_boats inst * (n_boats inst - 1) / 2 + 2.
Proof.
  intros Hn. split; [now apply build_model_two_boats|].
  unfold model. rewrite !length_app.
  assert (H1 : length (C1 inst)
               = 2 * available_halfhours inst * n_boats inst).
  { unfold C1.
    rewrite (length_flat_map_const _ _ _ (2 * n_boats inst)), length_range;
      [lia|].
    intros t _. rewrite (length_flat_map_const _ _ _ 2), length_range;
      [lia | reflexivity]. }
  assert (H2 : length (C2 inst) = 2 * n_boats inst).
  { unfold C2. rewrite (length_flat_map_const _ _ _ 2), length_range;
      [lia | reflexivity]. }
  assert (H3 : length (C3 inst) = n_boats inst)
    by (unfold C3; now rewrite length_map, length_range).
  assert (H4 : length (C4 inst) = n_boats inst)
    by (unfold C4; now rewrite length_map, length_range).
  assert (H5 : length (C5 inst) = n_boats inst * (n_boats inst - 1)).
  { unfold C5.
    rewrite (length_flat_map_const _ _ _ (n_boats inst - 1)), length_range;
      [lia|].
    intros i Hi.
    rewrite (length_skip_present _ (visits_once inst i) i
               (range (n_boats inst)) (range_NoDup _) Hi).
    now rewrite length_range. }
  assert (H6 : length (C6 inst) = available_halfhours inst * n_boats inst).
  { unfold C6.
    rewrite (length_flat_map_const _ _ _ (n_boats inst)), length_range; [lia|].
    intros t _. now rewrite length_map, length_range. }
  assert (H7 : length (C7 inst) = n_boats inst * (n_boats inst - 1) / 2).
  { apply Nat.div_unique_exact; [lia|]. symmetry. unfold C7, range.
    exact (length_triangle _ (meet_once inst) (n_boats inst) 0). }
  rewrite H1, H2, H3, H4, H5, H6, H7. cbn [length]. lia.
Qed.

Lemma number_of_posted_constraints_witness :
  2 <= n_boats inst3 /\
  (build_model inst3 = Built (model inst3) /\
   length (model inst3)
   = 3 * available_halfhours inst3 * n_boats inst3 + 4 * n_boats inst3
     + n_boats inst3 * (n_boats inst3 - 1)
     + n_boats inst3 * (n_boats inst3 - 1) / 2 + 2).
Proof.
  split; [cbn; lia|].
  apply (number_of_posted_constraints inst3). cbn; lia.
Defined.

(** ** A boat with room for everybody *)

Lemma accepted_intro (inst : Instance) (a : Assignment) :
  (forall t b, t < available_halfhours inst -> b < n_boats inst ->
     (guests_aboard inst t b a + crew inst b <= cap inst b)%Z /\
     boats a t b b = false) ->
  (forall b, b < n_boats inst -> hosts a b = true ->
     (0 < visits_to inst b a)%Z /\ visits_from inst b a = 0%Z) ->
  (forall b, b < n_boats inst -> hosts a b = false ->
     visits_to inst b a = 0%Z /\ (0 < visits_from inst b a)%Z) ->
  (forall i j, i < n_boats inst -> j < n_boats inst -> i <> j ->
     hosts a i = false -> hosts a j = true -> pair_visits inst i j a = 1%Z) ->
  (forall t i, t < available_halfhours inst -> i < n_boats inst ->
     hosts a i = false -> (slot_visits inst t i a <= 1)%Z) ->
  (forall i k, i < k -> k < n_boats inst ->
     hosts a i = false -> hosts a k = false -> (meetings inst i k a <= 1)%Z) ->
  (0 < host_count inst a < Z.of_nat (n_boats inst))%Z ->
  accepted inst a = true.
Proof.
  intros H1 Hhost Hguest H5 H6 H7 H89.
  unfold accepted, satisfies. apply forallb_forall. intros c Hc.
  unfold model in Hc. rewrite !in_app_iff in Hc.
  destruct Hc as [H | [H | [H | [H | [H | [H | [H | H]]]]]]].
  - unfold C1 in H. apply in_flat_map in H. destruct H as (t & Ht & H).
    apply in_flat_map in H. destruct H as (b & Hb & [<- | [<- | []]]);
      apply in_range in Ht, Hb; destruct (H1 t b Ht Hb) as [Hc Hs].
    + unfold capacity_limit. now apply Z.leb_le.
    + unfold no_self_visit. now rewrite Hs.
  - unfold C2 in H. apply in_flat_map in H.
    destruct H as (b & Hb & [<- | [<- | []]]); apply in_range in Hb.
    + unfold host_has_guests. destruct (hosts a b) eqn:E; [|reflexivity].
      cbn [implb]. apply Z.ltb_lt. now apply Hhost.
    + unfold guest_has_no_guests. destruct (hosts a b) eqn:E; [reflexivity|].
      cbn [implb negb]. apply Z.eqb_eq. now apply Hguest.
  - unfold C3 in H. apply in_map_iff in H. destruct H as (b & <- & Hb).
    apply in_range in Hb. unfold host_stays.
    destruct (hosts a b) eqn:E; [|reflexivity].
    cbn [implb]. apply Z.eqb_eq. now apply Hhost.
  - unfold C4 in H. apply in_map_iff in H. destruct H as (b & <- & Hb).
    apply in_range in Hb. unfold guest_visits.
    destruct (hosts a b) eqn:E; [reflexivity|].
    cbn [implb negb]. apply Z.ltb_lt. now apply Hguest.
  - unfold C5 in H. apply in_flat_map in H. destruct H as (i & Hi & H).
    apply in_flat_map in H. destruct H as (j & Hj & H).
    destruct (Nat.eqb i j) eqn:E; [contradiction|]. destruct H as [<- | []].
    apply Nat.eqb_neq in E. apply in_range in Hi, Hj. unfold visits_once.
    destruct (hosts a i) eqn:Ei; [reflexivity|].
    destruct (hosts a j) eqn:Ej; [|reflexivity].
    cbn [implb negb andb]. apply Z.eqb_eq. now apply H5.
  - unfold C6 in H. apply in_flat_map in H. destruct H as (t & Ht & H).
    apply in_map_iff in H. destruct H as (i & <- & Hi).
    apply in_range in Ht, Hi. unfold one_per_slot.
    destruct (hosts a i) eqn:E; [reflexivity|].
    cbn [implb negb]. apply Z.leb_le. now apply H6.
  - unfold C7 in H. apply in_flat_map in H. destruct H as (i & Hi & H).
    apply in_map_iff in H. destruct H as (k & <- & Hk).
    apply in_range_from in Hk. unfold meet_once.
    destruct (hosts a i) eqn:Ei; [reflexivity|].
    destruct (hosts a k) eqn:Ek; [reflexivity|].
    cbn [implb negb andb]. apply Z.leb_le. apply H7; auto; lia.
  - destruct H as [<- | [<- | []]].
    + unfold C8. apply Z.ltb_lt. lia.
    + unfold C9. apply Z.ltb_lt. lia.
Qed.

Lemma sum_flags_all_false (A : Type) (f : A -> bool) (l : list A) :
  (forall x, In x l -> f x = false) -> sum (map (fun x => b2z (f x)) l) = 0%Z.
Proof.
  induction l as [|x l IH]; intros H; [reflexivity|].
  cbn [map sum fold_right]. fold (sum (map (fun x => b2z (f x)) l)).
  rewrite (H x) by now left.
  rewrite IH by (intros y Hy; apply H; now right). reflexivity.
Qed.

Lemma sum_flags_exists (A : Type) (f : A -> bool) (l : list A) (x : A) :
  In x l -> f x = true -> (0 < sum (map (fun x => b2z (f x)) l))%Z.
Proof.
  induction l as [|y l IH]; intros Hx Hf; [contradiction|].
  cbn [map sum fold_right]. fold (sum (map (fun x => b2z (f x)) l)).
  pose proof (sum_flags_nonneg A f l). pose proof (b2z_range (f y)).
  destruct Hx as [-> | Hx].
  - rewrite Hf. cbn [b2z]. lia.
  - specialize (IH Hx Hf). lia.
Qed.

Lemma sum_flags_unique (A : Type) (f : A -> bool) (l : list A) (x0 : A) :
  NoDup l -> (forall x, In x l -> f x = true -> x = x0) ->
  (sum (map (fun x => b2z (f x)) l) <= 1)%Z.
Proof.
  induction 1 as [|y l Hy Hnd IH]; intros H; [cbn; lia|].
  cbn [map sum fold_right]. fold (sum (map (fun x => b2z (f x)) l)).
  destruct (f y) eqn:E; cbn [b2z].
  - assert (y = x0) by (apply H; [now left | exact E]). subst y.
    rewrite sum_flags_all_false; [lia|].
    intros x Hx. destruct (f x) eqn:Ex; [|reflexivity].
    assert (x = x0) by (apply H; [now right | exact Ex]). subst x.
    contradiction.
  - assert (sum (map (fun x => b2z (f x)) l) <= 1)%Z; [|lia].
    apply IH. intros x Hx. apply H. now right.
Qed.

Lemma double_sum_exists (f : nat -> nat -> bool) (lt ln : list nat) (t i : nat) :
  In t lt -> In i ln -> f t i = true ->
  (0 < sum (map (fun t => sum (map (fun i => b2z (f t i)) ln)) lt))%Z.
Proof.
  intros Ht Hi Hf.
  pose proof (term_le_sum (fun t => sum (map (fun i => b2z (f t i)) ln)) lt t
                (fun y _ => sum_flags_nonneg nat (f y) ln) Ht) as H.
  pose proof (sum_flags_exists nat (f t) ln i Hi Hf) as H'.
  cbv beta in H, H'. lia.
Qed.

Lemma double_sum_all_false (f : nat -> nat -> bool) (lt ln : list nat) :
  (forall t i, In t lt -> In i ln -> f t i = false) ->
  sum (map (fun t => sum (map (fun i => b2z (f t i)) ln)) lt) = 0%Z.
Proof.
  intros H.
  rewrite (sum_map_ext_in (fun t => sum (map (fun i => b2z (f t i)) ln))
             (fun _ => 0%Z)); [apply sum_map_zero|].
  intros t Ht. apply sum_flags_all_false. intros i Hi. now apply H.
Qed.

Lemma sum_except_absent (c : nat -> Z) (h : nat) (l : list nat) :
  ~ In h l ->
  sum (map (fun i => b2z (negb (Nat.eqb i h)) * c i)%Z l) = sum (map c l).
Proof.
  intros Hh. apply sum_map_ext_in. intros i Hi.
  assert (E : Nat.eqb i h = false)
    by (apply Nat.eqb_neq; intros ->; contradiction).
  rewrite E. cbn [negb b2z]. lia.
Qed.

Lemma sum_except (c : nat -> Z) (h : nat) (l : list nat) :
  NoDup l -> In h l ->
  (sum (map (fun i => b2z (negb (Nat.eqb i h)) * c i) l) + c h
   = sum (map c l))%Z.
Proof.
  induction 1 as [|y l Hy Hnd IH]; intros Hh; [contradiction|].
  cbn [map sum fold_right].
  fold (sum (map (fun i => b2z (negb (Nat.eqb i h)) * c i)%Z l)).
  fold (sum (map c l)). destruct Hh as [-> | Hh].
  - rewrite Nat.eqb_refl, sum_except_absent by exact Hy. cbn [negb b2z]. lia.
  - assert (E : Nat.eqb y h = false)
      by (apply Nat.eqb_neq; intros ->; contradiction).
    rewrite E. cbn [negb b2z]. specialize (IH Hh). lia.
Qed.

Lemma filter_unique_length (A : Type) (f : A -> bool) (l : list A) (x0 : A) :
  NoDup l -> (forall x, In x l -> f x = true -> x = x0) ->
  length (filter f l) <= 1.
Proof.
  induction 1 as [|y l Hy Hnd IH]; intros H; [cbn; lia|].
  cbn [filter]. destruct (f y) eqn:E.
  - assert (y = x0) by (apply H; [now left | exact E]). subst y.
    assert (Hnil : filter f l = []).
    { destruct (filter f l) as [|z zs] eqn:Ef; [reflexivity|].
      assert (Hz : In z (filter f l)) by (rewrite Ef; now left).
      apply filter_In in Hz. destruct Hz as [Hz Hfz].
      assert (z = x0) by (apply H; [now right | exact Hfz]). subst z.
      contradiction. }
    rewrite Hnil. cbn. lia.
  - apply IH. intros x Hx. apply H. now right.
Qed.

Section SingleHost.

Variable inst : Instance.
Variable h : nat.
Hypothesis Hn : 2 <= n_boats inst.
Hypothesis HT : 1 <= available_halfhours inst.
Hypothesis Hh : h < n_boats inst.
Hypothesis Hown : forall b, b < n_boats inst -> (crew inst b <= cap inst b)%Z.
Hypothesis Hall :
  (sum (map (crew inst) (range (n_boats inst))) <= cap inst h)%Z.

Lemma single_host_aboard (t b : nat) :
  b < n_boats inst ->
  (guests_aboard inst t b (single_host h) + crew inst b <= cap inst b)%Z.
Proof.
  intros Hb. unfold guests_aboard. cbn [single_host boats].
  destruct (Nat.eqb t 0 && Nat.eqb b h) eqn:E.
  - apply andb_true_iff in E. destruct E as [Et Eb].
    apply Nat.eqb_eq in Eb. subst b. rewrite Et.
    rewrite (sum_map_ext_in
               (fun i => b2z (true && negb (Nat.eqb i h) && Nat.eqb h h)
                         * crew inst i)%Z
               (fun i => b2z (negb (Nat.eqb i h)) * crew inst i)%Z)
      by (intros i _; now rewrite (Nat.eqb_refl h), andb_true_r).
    rewrite (sum_except (crew inst) h (range (n_boats inst)) (range_NoDup _))
      by now apply in_range.
    exact Hall.
  - rewrite (sum_map_ext_in
               (fun i => b2z (Nat.eqb t 0 && negb (Nat.eqb i h) && Nat.eqb b h)
                         * crew inst i)%Z
               (fun _ => 0%Z)).
    + rewrite sum_map_zero. specialize (Hown b Hb). lia.
    + intros i _.
      destruct (Nat.eqb t 0), (Nat.eqb b h), (Nat.eqb i h);
        cbn in E |- *; congruence.
Qed.

Lemma single_host_accepted : accepted inst (single_host h) = true.
Proof.
  assert (H0 : In 0 (range (available_halfhours inst)))
    by (apply in_range; lia).
  assert (Hin : In h (range (n_boats inst))) by now apply in_range.
  apply accepted_intro.
  - intros t b Ht Hb. split; [now apply single_host_aboard|].
    cbn [single_host boats]. destruct (Nat.eqb b h); [|now rewrite andb_false_r].
    now rewrite andb_false_r.
  - intros b Hb Hhost. cbn [single_host hosts] in Hhost.
    apply Nat.eqb_eq in Hhost. subst b. split.
    + unfold visits_to.
      apply (double_sum_exists
               (fun t i => boats (single_host h) t i h) _ _ 0
               (if Nat.eqb h 0 then 1 else 0)); auto.
      * apply in_range. destruct (Nat.eqb h 0); lia.
      * cbn [single_host boats]. rewrite (Nat.eqb_refl h).
        destruct (Nat.eqb h 0) eqn:E.
        -- apply Nat.eqb_eq in E. rewrite E. reflexivity.
        -- apply Nat.eqb_neq in E.
           assert (E' : Nat.eqb 0 h = false) by (apply Nat.eqb_neq; lia).
           rewrite E'. reflexivity.
    + unfold visits_from.
      apply (double_sum_all_false (fun t j => boats (single_host h) t h j)).
      intros t j _ _. cbn [single_host boats].
      now rewrite (Nat.eqb_refl h), andb_false_r.
  - intros b Hb Hguest. cbn [single_host hosts] in Hguest. split.
    + unfold visits_to.
      apply (double_sum_all_false (fun t i => boats (single_host h) t i b)).
      intros t i _ _. cbn [single_host boats].
      now rewrite Hguest, andb_false_r.
    + unfold visits_from.
      apply (double_sum_exists
               (fun t j => boats (single_host h) t b j) _ _ 0 h); auto.
      cbn [single_host boats]. rewrite Hguest, (Nat.eqb_refl h). reflexivity.
  - intros i j Hi Hj Hij Hgi Hhj. cbn [single_host hosts] in Hgi, Hhj.
    unfold pair_visits. cbn [single_host boats]. rewrite Hgi, Hhj.
    pose proof (sum_flags_exists nat
                  (fun t => Nat.eqb t 0 && negb false && true)
                  (range (available_halfhours inst)) 0 H0 eq_refl).
    pose proof (sum_flags_unique nat
                  (fun t => Nat.eqb t 0 && negb false && true)
                  (range (available_halfhours inst)) 0 (range_NoDup _)) as Hu.
    assert (sum (map (fun t => b2z (Nat.eqb t 0 && negb false && true))
                     (range (available_halfhours inst))) <= 1)%Z; [|lia].
    apply Hu. intros t _ E. rewrite !andb_true_r in E. now apply Nat.eqb_eq.
  - intros t i Ht Hi Hgi. unfold slot_visits.
    apply (sum_flags_unique nat (fun j => boats (single_host h) t i j)
             (range (n_boats inst)) h (range_NoDup _)).
    intros j _ E. cbn [single_host boats] in E.
    apply andb_true_iff in E. destruct E as [_ E]. now apply Nat.eqb_eq.
  - intros i k Hik Hk Hgi Hgk. rewrite meetings_shared_visits.
    assert (length (shared_visits inst (single_host h) i k) <= 1); [|lia].
    unfold shared_visits.
    apply (filter_unique_length _ _ _ (0, h)).
    + apply NoDup_pairs; apply range_NoDup.
    + intros [t j] _ E. cbn [fst snd single_host boats] in E.
      apply andb_true_iff in E. destruct E as [E _].
      apply andb_true_iff in E. destruct E as [E Ej].
      apply andb_true_iff in E. destruct E as [Et _].
      apply Nat.eqb_eq in Et, Ej. now subst.
  - unfold host_count. cbn [single_host hosts].
    pose proof (sum_flags_exists nat (fun b => Nat.eqb b h)
                  (range (n_boats inst)) h Hin (Nat.eqb_refl h)).
    assert (sum (map (fun b => b2z (Nat.eqb b h)) (range (n_boats inst)))
            <= 1)%Z; [|lia].
    apply (sum_flags_unique nat (fun b => Nat.eqb b h) _ h (range_NoDup _)).
    intros b _ E. now apply Nat.eqb_eq.
Qed.

End SingleHost.

(** Property X11: when every boat holds its own crew and one boat [h] holds all crews
    together, an instance with two boats or more and one period or more is
    feasible: boat [h] alone can host.  The solver then returns a schedule
    with a single host, that is with [n_boats - 1] guests. *)
Theorem one_roomy_boat_hosts_everybody (inst : Instance) (h : nat) :
  2 <= n_boats inst -> 1 <= available_halfhours inst -> h < n_boats inst ->
  (forall b, b < n_boats inst -> (crew inst b <= cap inst b)%Z) ->
  (sum (map (crew inst) (range (n_boats inst))) <= cap inst h)%Z ->
  accepted inst (single_host h) = true /\
  exists a, solve inst = Some a /\
            guest_count inst a = (Z.of_nat (n_boats inst) - 1)%Z /\
            host_count inst a = 1%Z.
Proof.
  intros Hn HT Hh Hown Hall.
  pose proof (single_host_accepted inst h Hn HT Hh Hown Hall) as Hacc.
  split; [exact Hacc|].
  destruct (solve_feasible inst) as (a & Ha); [now exists (single_host h)|].
  exists a. split; [exact Ha|].
  apply solve_some in Ha. destruct Ha as [Hacc' Hmax].
  specialize (Hmax _ Hacc). unfold guest_count in *.
  rewrite !objective_host_count in *.
  pose proof (accepted_host_count inst a Hacc').
  pose proof (accepted_host_count inst _ Hacc).
  assert (Hone : host_count inst (single_host h) = 1%Z).
  { pose proof (host_count_le_periods inst _ Hacc).
    unfold host_count in *. cbn [single_host hosts] in *.
    assert (sum (map (fun b => b2z (Nat.eqb b h)) (range (n_boats inst)))
            <= 1)%Z; [|lia].
    apply (sum_flags_unique nat (fun b => Nat.eqb b h) _ h (range_NoDup _)).
    intros b _ E. now apply Nat.eqb_eq. }
  lia.
Qed.

Lemma one_roomy_boat_hosts_everybody_witness :
  2 <= n_boats inst3 /\ 1 <= available_halfhours inst3 /\ 0 < n_boats inst3 /\
  (forall b, b < n_boats inst3 -> (crew inst3 b <= cap inst3 b)%Z) /\
  (sum (map (crew inst3) (range (n_boats inst3))) <= cap inst3 0)%Z /\
  (accepted inst3 (single_host 0) = true /\
   exists a, solve inst3 = Some a /\
             guest_count inst3 a = (Z.of_nat (n_boats inst3) - 1)%Z /\
             host_count inst3 a = 1%Z).
Proof.
  assert (Hown : forall b, b < n_boats inst3 -> (crew inst3 b <= cap inst3 b)%Z).
  { intros b Hb. cbn in Hb. destruct b as [|[|[|b]]]; cbn; lia. }
  split; [cbn; lia|]. split; [cbn; lia|]. split; [cbn; lia|].
  split; [exact Hown|]. split; [cbn; lia|].
  apply (one_roomy_boat_hosts_everybody inst3 0);
    [cbn; lia | cbn; lia | cbn; lia | exact Hown | cbn; lia].
Defined.
